(** * The reminder scheduler of the task-manager backend

    A shallow embedding of [backend/app/services/scheduler.py]
    ([TaskScheduler]) and [backend/app/services/email_service.py]
    ([EmailService]), and the properties of one reminder pass; then of
    [DatabaseService.query] ([backend/app/services/database.py]) and of the
    two routes of [backend/app/routes/notifications.py], which use the
    mailer by hand.

    Python objects are modelled as follows.
    - A task is a [dict]: a finite map from field names to JSON scalars.
    - Dicts live in a heap of objects, and a variable holds a location:
      [task.copy()] allocates, [d['k'] = v] writes through the location.
    - A function that may raise has a type [M A]: it takes the machine state
      and returns either the exception or the value, with the new state.
    - The collaborators the code calls but does not define (the data store
      behind [db_service.query], the HTTP client, the SMTP server, the clock
      and the [datetime] library) are the fields of a [Platform]. *)

From stdpp Require Import gmap strings list pretty.
From Stdlib Require Import QArith Ascii.

Open Scope Z_scope.

(** ** Python values *)

(** The JSON scalars a record of the store holds in the fields the scheduler
    reads ([id], [auth_users_id], [title], [status], [priority], [due_date],
    [description]). Nested arrays and objects are outside the model. *)
Inductive value :=
| VNone
| VBool (b : bool)
| VInt (n : Z)
| VStr (s : string).

#[global] Instance value_eq_dec : EqDecision value.
Proof. solve_decision. Defined.

Abbreviation dict := (gmap string value).

(** The exceptions of class [Exception] that the modelled code can meet. *)
Inductive exn :=
| KeyError (k : string)
| TypeError
| AttributeError
| ValueError
| ExternalError (what : string).

(** [bool(v)] *)
Definition truthy (v : value) : bool :=
  match v with
  | VNone => false
  | VBool b => b
  | VInt n => negb (n =? 0)
  | VStr s => negb (String.eqb s "")
  end.

(** [str(v)], as an f-string formats a value. *)
Definition str (v : value) : string :=
  match v with
  | VNone => "None"
  | VBool true => "True"
  | VBool false => "False"
  | VInt n => pretty n
  | VStr s => s
  end.

(** [a == b] on scalars; a string is equal to strings only. *)
Definition value_eqb (a b : value) : bool := bool_decide (a = b).

(** [d.get(k)] and [d.get(k, dflt)] *)
Definition dict_get (d : dict) (k : string) : value := default VNone (d !! k).
Definition dict_get_or (d : dict) (k : string) (dflt : value) : value :=
  default dflt (d !! k).

(** [d[k]] *)
Definition getitem (d : dict) (k : string) : exn + value :=
  match d !! k with
  | Some v => inr v
  | None => inl (KeyError k)
  end.

(** ** Strings *)

(** [sub in s] for two strings. *)
Fixpoint str_in (sub s : string) : bool :=
  String.prefix sub s ||
  match s with
  | EmptyString => false
  | String _ s' => str_in sub s'
  end.

(** [s.replace(old, new)] for a non-empty [old] (it is ['Z'] and
    ['OVERDUE: '] in the code): the occurrences are replaced from left to
    right, without overlap. [skip] counts the characters of a matched
    occurrence that are still to be dropped. *)
Fixpoint str_replace_from (old new s : string) (skip : nat) : string :=
  match s with
  | EmptyString => EmptyString
  | String c s' =>
      match skip with
      | S k => str_replace_from old new s' k
      | O =>
          if String.prefix old s
          then new +:+ str_replace_from old new s' (String.length old - 1)
          else String c (str_replace_from old new s' 0)
      end
  end.

Definition str_replace (old new s : string) : string :=
  str_replace_from old new s 0.

(** [sub in v]: a [TypeError] when [v] is not iterable. *)
Definition py_in (sub : string) (v : value) : exn + bool :=
  match v with
  | VStr s => inr (str_in sub s)
  | _ => inl TypeError
  end.

(** [v.replace(old, new)]: only [str] has the method. *)
Definition method_replace (v : value) (old new : string) : exn + string :=
  match v with
  | VStr s => inr (str_replace old new s)
  | _ => inl AttributeError
  end.

(** ** Dates *)

(** A [datetime]: the wall-clock fields as microseconds since
    0001-01-01T00:00:00 on the naive time line, and the UTC offset of the
    [tzinfo] (in microseconds) when there is one. *)
Record datetime := Datetime { wall : Z; tzinfo : option Z }.

(** [dt.replace(tzinfo=None)] keeps the wall-clock fields. *)
Definition drop_tzinfo (dt : datetime) : datetime :=
  {| wall := wall dt; tzinfo := None |}.

(** [a - b], a [timedelta] in microseconds. Naive and aware datetimes do not
    mix. *)
Definition datetime_sub (a b : datetime) : exn + Z :=
  match tzinfo a, tzinfo b with
  | None, None => inr (wall a - wall b)
  | Some oa, Some ob => inr ((wall a - oa) - (wall b - ob))
  | _, _ => inl TypeError
  end.

(** [td.total_seconds()] and [hours_until_due = total_seconds / 3600].

    The code computes both in binary floating point. A [timedelta] is an
    integer number of microseconds, so the real quotient is either equal to
    one of the bounds 0.9, 1.1, 0.08, -0.08, -0.9, -1.1 (then the seconds are
    a whole number, the division is correctly rounded and gives the very
    double the literal denotes) or at least 1/3600000000 away from it, far
    more than the rounding error of two divisions. The comparisons of the
    code therefore agree with the comparisons of the exact quotients, which
    is what the model uses. *)
Definition total_seconds (td : Z) : Q := td # 1000000.
Definition hours_of (td : Z) : Q := (total_seconds td / 3600)%Q.

(** ** Reminder windows *)

Inductive window := PreDue | DueNow | Overdue.

#[global] Instance window_eq_dec : EqDecision window.
Proof. solve_decision. Defined.

(** The suffix of the reminder key: [f"{task_id}_1h"], [f"{task_id}_due"],
    [f"{task_id}_overdue"]. *)
Definition window_suffix (w : window) : string :=
  match w with
  | PreDue => "_1h"
  | DueNow => "_due"
  | Overdue => "_overdue"
  end.

Definition reminder_key (task_id : value) (w : window) : string :=
  str task_id +:+ window_suffix w.

(** [lo <= h <= hi] *)
Definition between (lo h hi : Q) : bool := Qle_bool lo h && Qle_bool h hi.

(** The range test of each branch of the [if]/[elif] chain. *)
Definition in_window (w : window) (h : Q) : bool :=
  match w with
  | PreDue => between (9 # 10) h (11 # 10)
  | DueNow => between (-8 # 100) h (8 # 100)
  | Overdue => between (-11 # 10) h (-9 # 10)
  end.

(** The branch the [if]/[elif]/[elif] chain of the pass takes: each guard is
    the range test and the absence of the branch's key from the set. *)
Definition select_branch (h : Q) (task_id : value) (sent : gset string)
  : option window :=
  if in_window PreDue h && bool_decide (reminder_key task_id PreDue ∉ sent)
  then Some PreDue
  else if in_window DueNow h && bool_decide (reminder_key task_id DueNow ∉ sent)
  then Some DueNow
  else if in_window Overdue h && bool_decide (reminder_key task_id Overdue ∉ sent)
  then Some Overdue
  else None.

(** ** Collaborators *)

(** The two requests of [_get_user_email]: the [profiles] row with
    [params={"id": f"eq.{user_id}"}], and the auth user at
    [f".../auth/v1/admin/users/{user_id}"]. *)
Inductive request :=
| GetProfiles (id_filter : string)
| GetAuthUser (user_id : string).

(** What [response.json()] gives: an object, an array (of which only the
    truth value is looked at, so its length is kept) or a scalar. *)
Inductive json :=
| JObject (d : dict)
| JArray (len : nat)
| JScalar (v : value).

Record response := Response { status_code : Z; body : exn + json }.

(** The holes of the HTML template of the reminder, in the order the
    f-string evaluates them. *)
Record reminder_html := ReminderHtml {
  heading_overdue : bool;
  shown_title : string;
  description : string;
  urgent : bool;
  priority_label : string;
  due_str : string;
  overdue_notice : bool
}.

Record message := Message {
  subject : string;
  msg_from : string;
  msg_to : value;
  html : reminder_html
}.

(** The methods of [DatabaseService]. *)
Inductive db_op := DbQuery | DbInsert | DbUpdate | DbDelete | DbCount.

(** What a pass does that is visible from outside, in order. [EvRemind] is
    recorded at the three call sites of [email_service.send_task_reminder],
    with the key the call site guards, the arguments of the call (the task
    as it is at the call) and the result. *)
Inductive event :=
| EvDb (op : db_op) (table : string)
| EvResolve (user_id : value)
| EvHttpGet (r : request)
| EvSmtp (m : message)
| EvRemind (key : string) (recipient : value) (task : dict) (success : bool)
| EvClear.

(** The world outside the process. Every call may fail and may change the
    world; nothing is assumed about the answers. *)
Class Platform := {
  world : Type;
  (** [db_service.query(table="tasks", filters={}, limit=1000)]: the rows,
      or the exception [query] re-raises. *)
  db_query_tasks : world → (exn + list dict) * world;
  (** [datetime.now()], naive: its wall-clock microseconds. *)
  clock : world → Z * world;
  (** [client.get(...)] of httpx *)
  http_get : request → world → (exn + response) * world;
  (** The [with smtplib.SMTP(host, port)] block: connect, [starttls],
      [login], [send_message], and the exit; [None] when nothing raised. *)
  smtp_deliver : string → Z → string → string → message → world
                 → option exn * world;
  (** [datetime.fromisoformat], a [ValueError] on a malformed string *)
  fromisoformat : string → exn + datetime;
  (** [dt.strftime('%B %d, %Y at %I:%M %p')] *)
  strftime : datetime → string;
  (** [s.upper()] *)
  str_upper : string → string
}.

(** [self] of [EmailService], as [__init__] sets it from the settings; the
    two credentials are [None] when the settings lack the attribute. *)
Record EmailService := {
  smtp_host : string;
  smtp_port : Z;
  sender_email : option string;
  sender_password : option string
}.

(** [bool(x)] for [x] a string or [None]. *)
Definition configured (x : option string) : bool :=
  match x with
  | Some s => negb (String.eqb s "")
  | None => false
  end.

(** ** The machine and its monad *)

Definition loc := nat.

Section Machine.
Context `{Platform}.

(** [sent_reminders] is the field of the [TaskScheduler] object,
    [reminder_sent_count] the local variable of the pass, [heap] the dict
    objects (a location is an index, allocation appends), [out] the events so
    far, [ext] the world. *)
Record machine := Machine {
  sent_reminders : gset string;
  reminder_sent_count : nat;
  heap : list dict;
  out : list event;
  ext : world
}.

Definition M (A : Type) : Type := machine → (exn + A) * machine.

Definition ret {A} (a : A) : M A := λ s, (inr a, s).
Definition raise {A} (e : exn) : M A := λ s, (inl e, s).

Definition bind {A B} (m : M A) (k : A → M B) : M B :=
  λ s, match m s with
       | (inr a, s') => k a s'
       | (inl e, s') => (inl e, s')
       end.

(** [try: m  except Exception as e: h e] *)
Definition try_except {A} (m : M A) (h : exn → M A) : M A :=
  λ s, match m s with
       | (inl e, s') => h e s'
       | r => r
       end.

(** An expression that may raise and has no effect. *)
Definition lift {A} (r : exn + A) : M A := λ s, (r, s).

End Machine.

Notation "x <~ m ;; k" := (bind m (λ x, k))
  (at level 100, m at next level, right associativity,
   format "'[v' x  <~  m  ;;  '/' k ']'").
Notation "m ;;; k" := (bind m (λ _, k))
  (at level 100, right associativity).

Section Operations.
Context `{Platform}.

Definition emit (e : event) : M unit :=
  λ s, (inr tt, {| sent_reminders := sent_reminders s;
                   reminder_sent_count := reminder_sent_count s;
                   heap := heap s; out := out s ++ [e]; ext := ext s |}).

(** A call to the world. *)
Definition call {A} (f : world → A * world) : M A :=
  λ s, let '(a, w) := f (ext s) in
       (inr a, {| sent_reminders := sent_reminders s;
                  reminder_sent_count := reminder_sent_count s;
                  heap := heap s; out := out s; ext := w |}).

(** The dict a variable refers to. *)
Definition deref (l : loc) : M dict :=
  λ s, (inr (default ∅ (heap s !! l)), s).

(** A new dict object. *)
Definition alloc (d : dict) : M loc :=
  λ s, (inr (length (heap s)),
        {| sent_reminders := sent_reminders s;
           reminder_sent_count := reminder_sent_count s;
           heap := heap s ++ [d]; out := out s; ext := ext s |}).

(** [l[k] = v] *)
Definition setitem (l : loc) (k : string) (v : value) : M unit :=
  λ s, (inr tt,
        {| sent_reminders := sent_reminders s;
           reminder_sent_count := reminder_sent_count s;
           heap := alter (λ d, <[k := v]> d) l (heap s);
           out := out s; ext := ext s |}).

Fixpoint alloc_all (ds : list dict) : M (list loc) :=
  match ds with
  | [] => ret []
  | d :: ds' => l <~ alloc d ;; ls <~ alloc_all ds' ;; ret (l :: ls)
  end.

(** [self.sent_reminders.add(key)] *)
Definition add_sent (key : string) : M unit :=
  λ s, (inr tt, {| sent_reminders := {[key]} ∪ sent_reminders s;
                   reminder_sent_count := reminder_sent_count s;
                   heap := heap s; out := out s; ext := ext s |}).

Definition set_count (n : nat) : M unit :=
  λ s, (inr tt, {| sent_reminders := sent_reminders s;
                   reminder_sent_count := n;
                   heap := heap s; out := out s; ext := ext s |}).

(** [reminder_sent_count += 1] *)
Definition incr_count : M unit :=
  λ s, set_count (S (reminder_sent_count s)) s.

(** [for x in xs: body x]; a [continue] is the body returning early. *)
Fixpoint for_each {A} (body : A → M unit) (xs : list A) : M unit :=
  match xs with
  | [] => ret tt
  | x :: xs' => body x ;;; for_each body xs'
  end.

(** ** [EmailService.send_task_reminder] *)

(** [datetime.fromisoformat(task['due_date'].replace('Z', '+00:00'))
     if task.get('due_date') else None] *)
Definition reminder_due_date (d : dict) : exn + option datetime :=
  if truthy (dict_get d "due_date") then
    match getitem d "due_date" with
    | inl e => inl e
    | inr v =>
        match method_replace v "Z" "+00:00" with
        | inl e => inl e
        | inr s =>
            match fromisoformat s with
            | inl e => inl e
            | inr dt => inr (Some dt)
            end
        end
    end
  else inr None.

(** [v.upper()] *)
Definition method_upper (v : value) : exn + string :=
  match v with
  | VStr s => inr (str_upper s)
  | _ => inl AttributeError
  end.

(** The body of the [try] block up to the SMTP session: the message. *)
Definition build_message (sender : string) (recipient_email : value)
    (d : dict) : exn + message :=
  match getitem d "title" with
  | inl e => inl e
  | inr title =>
  match reminder_due_date d with
  | inl e => inl e
  | inr due_date =>
  let due := match due_date with
             | Some dt => strftime dt
             | None => "No due date"
             end in
  match py_in "OVERDUE" title with
  | inl e => inl e
  | inr heading =>
  match method_replace title "OVERDUE: " "" with
  | inl e => inl e
  | inr shown =>
  match getitem d "priority" with
  | inl e => inl e
  | inr priority =>
  match method_upper priority with
  | inl e => inl e
  | inr label =>
      inr {| subject := "⏰ Task Reminder: " +:+ str title;
             msg_from := sender;
             msg_to := recipient_email;
             html := {| heading_overdue := heading;
                        shown_title := shown;
                        description :=
                          str (dict_get_or d "description"
                                 (VStr "No description"));
                        urgent := value_eqb priority (VStr "urgent");
                        priority_label := label;
                        due_str := due;
                        overdue_notice := heading |} |}
  end end end end end end.

Definition send_task_reminder (self : EmailService)
    (recipient_email : value) (task : loc) : M bool :=
  if negb (configured (sender_email self))
     || negb (configured (sender_password self))
  then ret false
  else
    try_except
      (d <~ deref task ;;
       msg <~ lift (build_message (default "" (sender_email self))
                      recipient_email d) ;;
       emit (EvSmtp msg) ;;;
       r <~ call (smtp_deliver (smtp_host self) (smtp_port self)
                    (default "" (sender_email self))
                    (default "" (sender_password self)) msg) ;;
       match r with
       | Some e => raise e
       | None => ret true
       end)
      (λ _, ret false).

End Operations.

(** ** [TaskScheduler] *)

Section Scheduler.
Context `{Platform}.

(** The module-level [email_service] the scheduler calls. *)
Variable email_service : EmailService.

Definition json_truthy (j : json) : bool :=
  match j with
  | JObject d => negb (bool_decide (d = ∅))
  | JArray len => negb (Nat.eqb len 0)
  | JScalar v => truthy v
  end.

(** [j.get(k)]: only an object has the method. *)
Definition json_get (j : json) (k : string) : exn + value :=
  match j with
  | JObject d => inr (dict_get d k)
  | _ => inl AttributeError
  end.

(** [await client.get(...)] *)
Definition http (r : request) : M response :=
  emit (EvHttpGet r) ;;;
  x <~ call (http_get r) ;;
  lift x.

(** The [try] block of [_get_user_email]: [Some] of the dict it returns, or
    [None] when control falls out of the block. *)
Definition lookup_user_email (user_id : value) : M (option dict) :=
  response <~ http (GetProfiles ("eq." +:+ str user_id)) ;;
  if status_code response =? 200 then
    profiles <~ lift (body response) ;;
    if json_truthy profiles then
      auth_response <~ http (GetAuthUser (str user_id)) ;;
      if status_code auth_response =? 200 then
        user_data <~ lift (body auth_response) ;;
        email <~ lift (json_get user_data "email") ;;
        ret (Some ({[ "email" := email ]} : dict))
      else ret None
    else ret None
  else ret None.

Definition _get_user_email (user_id : value) : M dict :=
  emit (EvResolve user_id) ;;;
  r <~ try_except (lookup_user_email user_id) (λ _, ret None) ;;
  ret (default ∅ r).

(** [datetime.fromisoformat(v)]: a [TypeError] unless [v] is a [str]. *)
Definition fromisoformat_value (v : value) : exn + datetime :=
  match v with
  | VStr s => fromisoformat s
  | _ => inl TypeError
  end.

(** Lines 41-49: the due date of the task, parsed and made naive. *)
Definition parse_due_date (d : dict) : exn + datetime :=
  match getitem d "due_date" with
  | inl e => inl e
  | inr due_date_str =>
      match py_in "T" due_date_str with
      | inl e => inl e
      | inr has_T =>
          let parsed :=
            if has_T then
              match method_replace due_date_str "Z" "+00:00" with
              | inl e => inl e
              | inr s => fromisoformat s
              end
            else fromisoformat_value due_date_str in
          match parsed with
          | inl e => inl e
          | inr due_date =>
              inr (match tzinfo due_date with
                   | Some _ => drop_tzinfo due_date
                   | None => due_date
                   end)
          end
      end
  end.

(** What follows a call of [email_service.send_task_reminder] at each of the
    three call sites: [if success: add the key; count += 1]. *)
Definition record_result (key : string) (success : bool) : M unit :=
  if success then add_sent key ;;; incr_count else ret tt.

(** The body of one branch of the chain, for the task object [arg] that the
    branch hands to the mail adapter. *)
Definition remind (key : string) (user_email : value) (arg : loc) : M unit :=
  success <~ send_task_reminder email_service user_email arg ;;
  sent_task <~ deref arg ;;
  emit (EvRemind key user_email sent_task success) ;;;
  record_result key success.

(** The body of the inner [try] of the loop (lines 40-98). The three guards
    of the chain are [select_branch]; every branch first formats
    [task['title']] for its log line. *)
Definition task_body (now : datetime) (task : loc) : M unit :=
  d <~ deref task ;;
  due_date <~ lift (parse_due_date d) ;;
  task_id <~ lift (getitem d "id") ;;
  user_id <~ lift (getitem d "auth_users_id") ;;
  time_until_due <~ lift (datetime_sub due_date now) ;;
  let hours_until_due := hours_of time_until_due in
  user_data <~ _get_user_email user_id ;;
  if bool_decide (user_data = ∅) then ret tt
  else
    let user_email := dict_get user_data "email" in
    if negb (truthy user_email) then ret tt
    else
      sent <~ (λ s, (inr (sent_reminders s), s)) ;;
      match select_branch hours_until_due task_id sent with
      | Some PreDue =>
          _ <~ lift (getitem d "title") ;;
          remind (reminder_key task_id PreDue) user_email task
      | Some DueNow =>
          _ <~ lift (getitem d "title") ;;
          remind (reminder_key task_id DueNow) user_email task
      | Some Overdue =>
          _ <~ lift (getitem d "title") ;;
          copy <~ deref task ;;
          overdue_task <~ alloc copy ;;
          title <~ lift (getitem d "title") ;;
          setitem overdue_task "title" (VStr ("OVERDUE: " +:+ str title)) ;;;
          remind (reminder_key task_id Overdue) user_email overdue_task
      | None => ret tt
      end.

(** [not task.get('due_date') or task.get('status') == 'completed'] *)
Definition skipped (d : dict) : bool :=
  negb (truthy (dict_get d "due_date"))
  || value_eqb (dict_get d "status") (VStr "completed").

(** One iteration of the loop: the [continue] of line 37, else the inner
    [try] whose handler logs and continues. *)
Definition process_task (now : datetime) (task : loc) : M unit :=
  d <~ deref task ;;
  if skipped d then ret tt
  else try_except (task_body now task) (λ _, ret tt).

Definition _cleanup_old_reminders : M unit :=
  λ s, if (1000 <? size (sent_reminders s))%nat
       then (inr tt, {| sent_reminders := ∅;
                        reminder_sent_count := reminder_sent_count s;
                        heap := heap s; out := out s ++ [EvClear];
                        ext := ext s |})
       else (inr tt, s).

(** The body of the outer [try]. The rows of the answer become dict
    objects. *)
Definition pass_body : M unit :=
  emit (EvDb DbQuery "tasks") ;;;
  answer <~ call db_query_tasks ;;
  rows <~ lift answer ;;
  all_tasks <~ alloc_all rows ;;
  match all_tasks with
  | [] => ret tt
  | _ :: _ =>
      t <~ call clock ;;
      let now := {| wall := t; tzinfo := None |} in
      set_count 0 ;;;
      for_each (process_task now) all_tasks ;;;
      _cleanup_old_reminders
  end.

Definition check_task_reminders : M unit :=
  try_except pass_body (λ _, ret tt).

(** [n] ticks of the periodic job, one pass after the other. *)
Fixpoint run_passes (n : nat) : M unit :=
  match n with
  | O => ret tt
  | S n' => check_task_reminders ;;; run_passes n'
  end.

(** The machine of a fresh process: [TaskScheduler.__init__] makes the set
    empty. *)
Definition boot (w : world) : machine :=
  {| sent_reminders := ∅; reminder_sent_count := 0; heap := [];
     out := []; ext := w |}.

End Scheduler.

(** ** The settings of the mailer *)

(** The fields of [Settings] (config.py) that [EmailService.__init__]
    reads; a field is [None] when the settings lack the attribute. *)
Record Settings := {
  SMTP_HOST : option string;
  SMTP_PORT : option Z;
  SMTP_EMAIL : option string;
  SMTP_PASSWORD : option string
}.

(** [EmailService.__init__] *)
Definition email_service_init (settings : Settings) : EmailService := {|
  smtp_host := default "smtp-mail.outlook.com" (SMTP_HOST settings);
  smtp_port := default 587 (SMTP_PORT settings);
  sender_email := SMTP_EMAIL settings;
  sender_password := SMTP_PASSWORD settings
|}.

(** The defaults of the class [Settings]. *)
Definition default_settings : Settings := {|
  SMTP_HOST := Some "smtp.gmail.com";
  SMTP_PORT := Some 587;
  SMTP_EMAIL := Some "";
  SMTP_PASSWORD := Some ""
|}.

(** ** [DatabaseService.query] and the notification routes *)

(** The methods of the HTTP client that [DatabaseService] uses. *)
Inductive http_verb := GET | POST | PATCH | DELETE.

(** A request of [DatabaseService] to [f"{base_url}/rest/v1/{table}"]. *)
Record rest_call := RestCall {
  verb : http_verb;
  table : string;
  call_params : dict
}.

(** The answer to it: the status, and what [response.json()] gives, which
    for this service is an array of objects (the [List[Dict]] that [query]
    declares) unless decoding raises. *)
Record rest_response := RestResponse {
  rest_status : Z;
  rest_rows : exn + list dict
}.

(** What the routes and [DatabaseService] use of their libraries:
    the request itself, [response.raise_for_status()] ([None] when it
    returns), and [str(e)] for an exception and for an [HTTPException]. *)
Class Web `{Platform} := {
  rest_send : rest_call → world → (exn + rest_response) * world;
  raise_for_status : rest_response → option exn;
  exception_text : exn → string;
  http_exception_text : Z → string → string
}.

(** [raise HTTPException(status_code=..., detail=...)] *)
Inductive http_exception := HTTPException (status : Z) (detail : string).

(** [for key, value in filters.items(): params[key] = f"eq.{value}"] *)
Definition eq_filters (filters params : dict) : dict :=
  map_fold (λ key value acc, <[key := VStr ("eq." +:+ str value)]> acc)
    params filters.

(** The [params] that [query] builds (lines 27-40). An empty [filters], an
    empty [order_by], and a [limit] or [offset] of zero are falsy. *)
Definition query_params (select : string) (filters : option dict)
    (order_by : option string) (limit offset : option Z) : dict :=
  let params : dict := {[ "select" := VStr select ]} in
  let params :=
    match filters with
    | Some f => if bool_decide (f = ∅) then params else eq_filters f params
    | None => params
    end in
  let params :=
    match order_by with
    | Some o => if String.eqb o "" then params
                else <["order" := VStr o]> params
    | None => params
    end in
  let params :=
    match limit with
    | Some n => if n =? 0 then params else <["limit" := VInt n]> params
    | None => params
    end in
  match offset with
  | Some n => if n =? 0 then params else <["offset" := VInt n]> params
  | None => params
  end.

Section Database.
Context `{Web}.

(** [DatabaseService.query]: whatever is raised is logged and raised
    again. The answer is decoded for the log line and for the result. *)
Definition query (table select : string) (filters : option dict)
    (order_by : option string) (limit offset : option Z) : M (list dict) :=
  try_except
    (emit (EvDb DbQuery table) ;;;
     answer <~ call (rest_send
                       {| verb := GET; table := table;
                          call_params :=
                            query_params select filters order_by limit
                              offset |}) ;;
     response <~ lift answer ;;
     match raise_for_status response with
     | Some e => raise e
     | None =>
         logged <~ lift (rest_rows response) ;;
         lift (rest_rows response)
     end)
    (λ e, raise e).

End Database.

(** The routes of [routes/notifications.py]. A route returns its JSON
    answer or raises an [HTTPException]. *)
Module Notifications.
Section Routes.
Context `{Web}.
Variable email_service : EmailService.

(** The dict [test_task] of [test_email]. *)
Definition test_task : dict :=
  {[ "title" := VStr "Test Email Notification";
     "description" := VStr "This is a test email from AI Task Manager";
     "priority" := VStr "medium";
     "due_date" := VStr "2025-12-22T16:06:00" ]}.

(** [POST /api/notifications/test-email]. The [HTTPException] of a failed
    send is raised inside the [try], and [except Exception] takes it like
    any other exception. *)
Definition test_email (current_user : dict) : M (http_exception + dict) :=
  try_except
    (user_email <~ lift (getitem current_user "email") ;;
     test_task <~ alloc test_task ;;
     success <~ send_task_reminder email_service user_email test_task ;;
     if success
     then ret (inr ({[ "message" :=
                         VStr ("Test email sent to " +:+ str user_email) ]}
                    : dict))
     else ret (inl (HTTPException 500
                      (http_exception_text 500
                         "Failed to send test email - check SMTP credentials"))))
    (λ e, ret (inl (HTTPException 500 (exception_text e)))).

(** [POST /api/notifications/send-reminder]. Here [except HTTPException:
    raise] comes first, so the 404 and the 500 of the body go out as they
    are. *)
Definition send_task_reminder (task_id : string) (current_user : dict)
  : M (http_exception + dict) :=
  try_except
    (user_id <~ lift (getitem current_user "user_id") ;;
     user_email <~ lift (getitem current_user "email") ;;
     tasks <~ query "tasks" "*"
                (Some {[ "id" := VStr task_id; "auth_users_id" := user_id ]})
                None None None ;;
     match tasks with
     | [] => ret (inl (HTTPException 404 "Task not found"))
     | row :: _ =>
         task <~ alloc row ;;
         success <~ send_task_reminder email_service user_email task ;;
         if success
         then ret (inr ({[ "message" := VStr "Reminder sent successfully";
                           "email" := user_email ]} : dict))
         else ret (inl (HTTPException 500 "Failed to send reminder"))
     end)
    (λ e, ret (inl (HTTPException 500 (exception_text e)))).

End Routes.
End Notifications.

(** ** A simulated platform

    A platform to run the model on: a store with fixed rows, a clock that
    advances by a fixed step at every reading, a directory of users, and a
    mail server that is up or down. Its [fromisoformat] reads
    [YYYY-MM-DD], optionally followed by [THH:MM:SS] and by an offset
    [+HH:MM] or [-HH:MM], and rejects every other string. *)
Module Sim.

Record sim := {
  rows : exn + list dict;
  time : Z;
  tick : Z;
  emails : gmap string string;
  smtp_up : bool
}.

Definition digit (c : ascii) : option Z :=
  let n := Z.of_nat (nat_of_ascii c) - 48 in
  if (0 <=? n) && (n <=? 9) then Some n else None.

(** Reads exactly [n] digits. *)
Fixpoint digits (n : nat) (acc : Z) (s : string) : option (Z * string) :=
  match n with
  | O => Some (acc, s)
  | S n' =>
      match s with
      | String c s' => d ← digit c; digits n' (10 * acc + d) s'
      | EmptyString => None
      end
  end.

Definition expect (c : ascii) (s : string) : option string :=
  match s with
  | String c' s' => if Ascii.eqb c c' then Some s' else None
  | EmptyString => None
  end.

Definition is_leap (y : Z) : bool :=
  (y mod 4 =? 0) && (negb (y mod 100 =? 0) || (y mod 400 =? 0)).

Definition days_in_month (y m : Z) : Z :=
  if m =? 2 then (if is_leap y then 29 else 28)
  else if (m =? 4) || (m =? 6) || (m =? 9) || (m =? 11) then 30
  else 31.

Definition days_before_year (y : Z) : Z :=
  (y - 1) * 365 + (y - 1) / 4 - (y - 1) / 100 + (y - 1) / 400.

Fixpoint days_before_month (y : Z) (m : nat) : Z :=
  match m with
  | O => 0
  | S m' => days_before_month y m' + days_in_month y (Z.of_nat m)
  end.

(** The proleptic Gregorian ordinal; 0001-01-01 is day 1. *)
Definition ymd2ord (y m d : Z) : Z :=
  days_before_year y + days_before_month y (Z.to_nat (m - 1)) + d.

Definition parse_date (s : string) : option (Z * string) :=
  '(y, s) ← digits 4 0 s;
  s ← expect "-" s;
  '(m, s) ← digits 2 0 s;
  s ← expect "-" s;
  '(d, s) ← digits 2 0 s;
  if (1 <=? y) && (1 <=? m) && (m <=? 12) && (1 <=? d)
     && (d <=? days_in_month y m)
  then Some ((ymd2ord y m d - 1) * 86400, s)
  else None.

Definition parse_hms (s : string) : option (Z * string) :=
  '(h, s) ← digits 2 0 s;
  s ← expect ":" s;
  '(m, s) ← digits 2 0 s;
  s ← expect ":" s;
  '(sec, s) ← digits 2 0 s;
  if (h <? 24) && (m <? 60) && (sec <? 60)
  then Some (h * 3600 + m * 60 + sec, s)
  else None.

Definition parse_offset (s : string) : option (option Z) :=
  match s with
  | EmptyString => Some None
  | String c s' =>
      sign ← (if Ascii.eqb c "+" then Some 1
              else if Ascii.eqb c "-" then Some (-1) else None);
      '(h, s') ← digits 2 0 s';
      s' ← expect ":" s';
      '(m, s') ← digits 2 0 s';
      match s' with
      | EmptyString =>
          if (h <? 24) && (m <? 60)
          then Some (Some (sign * (h * 3600 + m * 60) * 1000000))
          else None
      | _ => None
      end
  end.

Definition parse_iso (s : string) : option datetime :=
  '(day_seconds, s) ← parse_date s;
  match s with
  | EmptyString => Some {| wall := day_seconds * 1000000; tzinfo := None |}
  | String c s' =>
      if Ascii.eqb c "T" then
        '(seconds, s') ← parse_hms s';
        tz ← parse_offset s';
        Some {| wall := (day_seconds + seconds) * 1000000; tzinfo := tz |}
      else None
  end.

Definition sim_fromisoformat (s : string) : exn + datetime :=
  match parse_iso s with
  | Some dt => inr dt
  | None => inl ValueError
  end.

Definition upper_ascii (c : ascii) : ascii :=
  let n := nat_of_ascii c in
  if (97 <=? n)%nat && (n <=? 122)%nat then ascii_of_nat (n - 32) else c.

Fixpoint sim_upper (s : string) : string :=
  match s with
  | EmptyString => EmptyString
  | String c s' => String (upper_ascii c) (sim_upper s')
  end.

Definition sim_http_get (r : request) (w : sim) : (exn + response) * sim :=
  match r with
  | GetProfiles id_filter =>
      let found :=
        match id_filter with
        | String "e" (String "q" (String "." user_id)) =>
            bool_decide (is_Some (emails w !! user_id))
        | _ => false
        end in
      (inr {| status_code := 200;
              body := inr (JArray (if found then 1 else 0)) |}, w)
  | GetAuthUser user_id =>
      match emails w !! user_id with
      | Some e =>
          (inr {| status_code := 200;
                  body := inr (JObject {[ "id" := VStr user_id;
                                          "email" := VStr e ]}) |}, w)
      | None =>
          (inr {| status_code := 404; body := inr (JObject ∅) |}, w)
      end
  end.

Definition sim_clock (w : sim) : Z * sim :=
  (time w, {| rows := rows w; time := time w + tick w; tick := tick w;
              emails := emails w; smtp_up := smtp_up w |}).

Definition sim_smtp (host : string) (port : Z) (user password : string)
    (m : message) (w : sim) : option exn * sim :=
  (if smtp_up w then None else Some (ExternalError "SMTP"), w).

#[export] Instance platform : Platform := {|
  world := sim;
  db_query_tasks := λ w, (rows w, w);
  clock := sim_clock;
  http_get := sim_http_get;
  smtp_deliver := sim_smtp;
  fromisoformat := sim_fromisoformat;
  strftime := λ dt, pretty (wall dt);
  str_upper := sim_upper
|}.

Definition mailer : EmailService := {|
  smtp_host := "smtp.gmail.com";
  smtp_port := 587;
  sender_email := Some "reminders@example.org";
  sender_password := Some "secret"
|}.

(** A row of the [tasks] table. *)
Definition task_row (id owner title status due : string) : dict :=
  {[ "id" := VStr id; "auth_users_id" := VStr owner; "title" := VStr title;
     "status" := VStr status; "priority" := VStr "high";
     "due_date" := VStr due ]}.

Definition directory : gmap string string :=
  {[ "u1" := "ann@example.org" ]}.

(** The world with the given rows at the given time of 2024-03-10. *)
Definition at_time (hms : string) (ts : list dict) : sim := {|
  rows := inr ts;
  time := match parse_iso ("2024-03-10T" +:+ hms) with
          | Some dt => wall dt
          | None => 0
          end;
  tick := 0;
  emails := directory;
  smtp_up := true
|}.

End Sim.

(** ** Scenarios

    Concrete tasks and schedulers on the simulated platform. The day is
    2024-03-10 and the task [report] is due at noon. *)

Module Scenario.
Import Sim.

(** [len] keys, none of which is the key of a task of the scenarios. *)
Fixpoint key_block (depth lo len : nat) : gset string :=
  match depth with
  | O => if Nat.eqb len 0 then ∅ else {[ "k" +:+ pretty lo ]}
  | S depth' =>
      key_block depth' lo (len / 2)%nat
      ∪ key_block depth' (lo + len / 2)%nat (len - len / 2)%nat
  end.

(** A set at the ceiling: exactly 1000 keys. *)
Definition full_set : gset string := key_block 10 0 1000.

(** A scheduler with the given set, before its next pass. *)
Definition scheduler (sent : gset string) (objects : list dict) (w : sim)
  : machine :=
  {| sent_reminders := sent; reminder_sent_count := 0; heap := objects;
     out := []; ext := w |}.

Definition report : dict :=
  task_row "t1" "u1" "Write report" "todo" "2024-03-10T12:00:00Z".

Definition ann : value := VStr "ann@example.org".

Definition eleven : datetime :=
  {| wall := time (at_time "11:00:00" []); tzinfo := None |}.

Definition pass (s : machine) : machine := (check_task_reminders mailer s).2.

(** One iteration of the loop, at eleven, for the task at location 0. *)
Definition visit (s : machine) : machine := (process_task mailer eleven 0%nat s).2.

Definition done_report : dict :=
  task_row "t1" "u1" "Write report" "completed" "2024-03-10T12:00:00Z".

(** Due an hour ago. *)
Definition rent : dict :=
  task_row "t3" "u1" "Pay rent" "todo" "2024-03-10T10:00:00".

(** Due tomorrow morning, 22 hours from eleven. *)
Definition far : dict :=
  task_row "t4" "u1" "Plan trip" "todo" "2024-03-11T09:00:00".

Definition broken : dict :=
  task_row "t2" "u1" "Call back" "todo" "next tuesday".

(** The same world with the mail server down. *)
Definition mail_down (w : sim) : sim :=
  {| rows := rows w; time := time w; tick := tick w; emails := emails w;
     smtp_up := false |}.

(** The same world with the store down. *)
Definition store_down (w : sim) : sim :=
  {| rows := inl (ExternalError "store"); time := time w; tick := tick w;
     emails := emails w; smtp_up := smtp_up w |}.

End Scenario.

(** ** The store and the routes on the simulated platform *)

Module SimWeb.
Import Sim.

(** A row matches when, for every parameter that names a column, the
    parameter is [eq.] followed by the text of the row's value. *)
Definition matches (params row : dict) : bool :=
  forallb (λ '(k, v),
             bool_decide (k ∈ ["select"; "order"; "limit"; "offset"])
             || value_eqb v (VStr ("eq." +:+ str (dict_get row k))))
    (map_to_list params).

Definition sim_rest_send (c : rest_call) (w : sim)
  : (exn + rest_response) * sim :=
  match rows w with
  | inl e => (inl e, w)
  | inr ts =>
      (inr {| rest_status := 200;
              rest_rows := inr (List.filter (matches (call_params c)) ts) |},
       w)
  end.

Definition sim_exception_text (e : exn) : string :=
  match e with
  | KeyError k => "'" +:+ k +:+ "'"
  | TypeError => "TypeError"
  | AttributeError => "AttributeError"
  | ValueError => "ValueError"
  | ExternalError what => what
  end.

#[export] Instance web : Web := {|
  rest_send := sim_rest_send;
  raise_for_status := λ r, if 400 <=? rest_status r
                           then Some (ExternalError "HTTP status")
                           else None;
  exception_text := sim_exception_text;
  http_exception_text := λ status detail, pretty status +:+ ": " +:+ detail
|}.

(** The decoded token of the user [u1], as [get_current_user] returns
    it. *)
Definition ann_user : dict :=
  {[ "user_id" := VStr "u1"; "email" := VStr "ann@example.org";
     "role" := VStr "authenticated" ]}.

(** Another user, who owns no task. *)
Definition bob_user : dict :=
  {[ "user_id" := VStr "u2"; "email" := VStr "bob@example.org";
     "role" := VStr "authenticated" ]}.

(** The mailer made from the defaults of the settings. *)
Definition default_mailer : EmailService := email_service_init default_settings.


End SimWeb.

(** * The vocabulary of the properties *)

Definition window_lo (w : window) : Q :=
  match w with
  | PreDue => 9 # 10
  | DueNow => -8 # 100
  | Overdue => -11 # 10
  end.

Definition window_hi (w : window) : Q :=
  match w with
  | PreDue => 11 # 10
  | DueNow => 8 # 100
  | Overdue => -9 # 10
  end.

(** The events of the two collaborators that neither send a reminder nor
    touch the set or the store. *)
Definition is_io (e : event) : Prop :=
  match e with
  | EvResolve _ | EvHttpGet _ | EvSmtp _ => True
  | _ => False
  end.

(** The requests to the HTTP service and the mail server. *)
Definition is_wire (e : event) : Prop :=
  match e with
  | EvHttpGet _ | EvSmtp _ => True
  | _ => False
  end.

Definition is_remind (e : event) : Prop :=
  match e with
  | EvRemind _ _ _ _ => True
  | _ => False
  end.

Section Vocabulary.
Context `{Platform}.
Variable email_service : EmailService.

(** [s'] is [s] with the events [evs] added and, possibly, another world. *)
Definition extends (s s' : machine) (evs : list event) : Prop :=
  sent_reminders s' = sent_reminders s
  ∧ reminder_sent_count s' = reminder_sent_count s
  ∧ heap s' = heap s
  ∧ out s' = out s ++ evs.

(** The dict the mail adapter is handed for window [w]. *)
Definition sent_copy (w : window) (d : dict) : dict :=
  match w with
  | Overdue => <["title" := VStr ("OVERDUE: " +:+ str (dict_get d "title"))]> d
  | _ => d
  end.

(** What one iteration of the loop does to the machine. Either it is quiet:
    it sends nothing, and the set, the counter and the heap are as before.
    Or it reminds: the task is live, its due date parses and is in window
    [w], the key of [w] was not in the set, a recipient was resolved as the
    first thing, and the adapter was called exactly once, as the last thing,
    with the answer [success] deciding the key and the counter. *)
Inductive task_step (now : datetime) (task : loc) (s s' : machine) : Prop :=
| step_quiet evs :
    extends s s' evs →
    Forall is_io evs →
    task_step now task s s'
| step_remind d due task_id user_id td w recipient success evs :
    d = default ∅ (heap s !! task) →
    skipped d = false →
    parse_due_date d = inr due →
    getitem d "id" = inr task_id →
    getitem d "auth_users_id" = inr user_id →
    datetime_sub due now = inr td →
    in_window w (hours_of td) = true →
    reminder_key task_id w ∉ sent_reminders s →
    truthy recipient = true →
    is_Some (d !! "title") →
    heap s' = heap s ++ match w with
                        | Overdue => [sent_copy w d]
                        | _ => []
                        end →
    out s' = out s ++ (EvResolve user_id :: evs)
             ++ [EvRemind (reminder_key task_id w) recipient
                   (sent_copy w d) success] →
    Forall is_wire evs →
    sent_reminders s' =
      (if success then {[reminder_key task_id w]} ∪ sent_reminders s
       else sent_reminders s) →
    reminder_sent_count s' =
      (if success then S (reminder_sent_count s)
       else reminder_sent_count s) →
    task_step now task s s'.

(** The iterations of the loop over the fetched tasks, in order. *)
Inductive loop_steps (now : datetime) : list loc → machine → machine → Prop :=
| loop_done s : loop_steps now [] s s
| loop_next task tasks s s1 s2 :
    task_step now task s s1 →
    loop_steps now tasks s1 s2 →
    loop_steps now (task :: tasks) s s2.

(** The events a loop may add when it starts with the set [sent0]: traffic
    with the collaborators, and reminders for keys that were not in [sent0],
    about tasks the loop does not skip. *)
Definition loop_event (sent0 : gset string) (e : event) : Prop :=
  match e with
  | EvResolve _ | EvHttpGet _ | EvSmtp _ => True
  | EvRemind key _ task _ => (key ∉ sent0) ∧ skipped task = false
  | _ => False
  end.

(** What a step keeps: the set only grows, the heap only grows at its end,
    and the events added are [loop_event]s. *)
Definition grows (s s' : machine) : Prop :=
  sent_reminders s ⊆ sent_reminders s'
  ∧ (∃ extra, heap s' = heap s ++ extra)
  ∧ ∃ evs, out s' = out s ++ evs ∧ Forall (loop_event (sent_reminders s)) evs.

(** What a pass does to the machine. Either the fetch raised or gave no
    task, and only the query happened. Or the rows became the task objects,
    the loop ran over all of them, and the cleanup followed. *)
Inductive pass_outcome (s s' : machine) : Prop :=
| pass_idle :
    (∃ e, (db_query_tasks (ext s)).1 = inl e)
    ∨ (db_query_tasks (ext s)).1 = inr [] →
    sent_reminders s' = sent_reminders s →
    reminder_sent_count s' = reminder_sent_count s →
    heap s' = heap s →
    out s' = out s ++ [EvDb DbQuery "tasks"] →
    pass_outcome s s'
| pass_ran rows now s0 s1 :
    (db_query_tasks (ext s)).1 = inr rows →
    rows ≠ [] →
    sent_reminders s0 = sent_reminders s →
    heap s0 = heap s ++ rows →
    out s0 = out s ++ [EvDb DbQuery "tasks"] →
    reminder_sent_count s0 = 0%nat →
    for_each (process_task email_service now)
      (seq (length (heap s)) (length rows)) s0 = (inr tt, s1) →
    loop_steps now (seq (length (heap s)) (length rows)) s0 s1 →
    _cleanup_old_reminders s1 = (inr tt, s') →
    pass_outcome s s'.

(** The set as the trace tells it: a successful reminder adds its key, a
    clear empties the set. *)
Definition apply_event (acc : gset string) (e : event) : gset string :=
  match e with
  | EvRemind key _ _ true => {[key]} ∪ acc
  | EvClear => ∅
  | _ => acc
  end.

Definition replay (tr : list event) : gset string :=
  fold_left apply_event tr ∅.

(** No reminder is attempted for a key that the trace before it has in the
    set. *)
Definition deduped (tr : list event) : Prop :=
  ∀ j key recipient task success,
    tr !! j = Some (EvRemind key recipient task success) →
    key ∉ replay (take j tr).

(** The invariant of the scheduler, for the events [evs] it added to the
    trace [base]: the keys the events tell are in its set, and no reminder
    among them was attempted for a key the events before it tell. *)
Definition consistent (base : list event) (s : machine) : Prop :=
  ∃ evs, out s = base ++ evs
         ∧ replay evs ⊆ sent_reminders s
         ∧ deduped evs.

(** The events added between [s] and a later [s']. *)
Definition new_events (s s' : machine) : list event :=
  drop (length (out s)) (out s').

End Vocabulary.

(** ** The vocabulary of the further properties *)

(** The number of reminders the events tell were sent with success. *)
Fixpoint successes (evs : list event) : nat :=
  match evs with
  | [] => 0
  | EvRemind _ _ _ true :: evs' => S (successes evs')
  | _ :: evs' => successes evs'
  end.

(** The events of a pass whose mailer sends nothing: requests to the store
    and reminders that failed. *)
Definition is_unsent (e : event) : Prop :=
  match e with
  | EvResolve _ | EvHttpGet _ | EvRemind _ _ _ false => True
  | _ => False
  end.

(** The request of the route [send-reminder] to the store. *)
Definition route_request (task_id : string) (user_id : value) : rest_call :=
  {| verb := GET; table := "tasks";
     call_params := {[ "select" := VStr "*";
                       "id" := VStr ("eq." +:+ task_id);
                       "auth_users_id" := VStr ("eq." +:+ str user_id) ]} |}.

(** [if limit:] and [if order_by:] on an optional argument. *)
Definition is_sent_int (x : option Z) : bool :=
  match x with Some n => negb (n =? 0) | None => false end.

Definition is_sent_str (x : option string) : bool :=
  match x with Some o => negb (String.eqb o "") | None => false end.

(** * Properties *)

(** ** The reminder windows *)

Lemma between_spec lo h hi :
  between lo h hi = true ↔ (lo <= h)%Q ∧ (h <= hi)%Q.
Proof.
  unfold between. rewrite andb_true_iff, !Qle_bool_iff. reflexivity.
Qed.

Lemma in_window_spec w h :
  in_window w h = true ↔ (window_lo w <= h)%Q ∧ (h <= window_hi w)%Q.
Proof. destruct w; apply between_spec. Qed.

Lemma in_window_exclusive h w1 w2 :
  in_window w1 h = true → in_window w2 h = true → w1 = w2.
Proof.
  rewrite !in_window_spec. intros [Hl1 Hh1] [Hl2 Hh2].
  destruct w1, w2; try reflexivity; exfalso;
    simpl in *;
    first [ solve [generalize (Qle_trans _ _ _ Hl1 Hh2); unfold Qle; simpl; lia]
          | solve [generalize (Qle_trans _ _ _ Hl2 Hh1); unfold Qle; simpl; lia] ].
Qed.

Lemma select_branch_spec h task_id sent w :
  select_branch h task_id sent = Some w ↔
  in_window w h = true ∧ reminder_key task_id w ∉ sent.
Proof.
  unfold select_branch. split.
  - repeat case_match; intros [= <-];
      match goal with
      | Hg : _ && _ = true |- _ =>
          apply andb_true_iff in Hg as [? ?%bool_decide_eq_true]
      end; done.
  - intros [Hw Hk].
    destruct (in_window PreDue h) eqn:E1.
    { assert (w = PreDue) as -> by eauto using in_window_exclusive.
      simpl; by rewrite bool_decide_eq_true_2. }
    destruct (in_window DueNow h) eqn:E2.
    { assert (w = DueNow) as -> by eauto using in_window_exclusive.
      simpl; by rewrite bool_decide_eq_true_2. }
    destruct (in_window Overdue h) eqn:E3.
    { assert (w = Overdue) as -> by eauto using in_window_exclusive.
      simpl; by rewrite bool_decide_eq_true_2. }
    destruct w; congruence.
Qed.

(** C2. The hours until due fall in at most one of the three windows, whose
    bounds are inclusive: [0.9, 1.1] before due, [-0.08, 0.08] at due,
    [-1.1, -0.9] after due. The chain of the pass takes the branch of window
    [w] exactly when the hours are in [w] and the key of [w] is not in the
    set. A task due in exactly one hour (3600 seconds after [now]) is in the
    first window, and a task due in 1.15 hours (4140 seconds) is in none. *)
Theorem window_classification :
  (∀ h w1 w2, in_window w1 h = true → in_window w2 h = true → w1 = w2)
  ∧ (∀ h w, in_window w h = true ↔
            (window_lo w <= h)%Q ∧ (h <= window_hi w)%Q)
  ∧ (window_lo PreDue == 0.9 ∧ window_hi PreDue == 1.1
     ∧ window_lo DueNow == -0.08 ∧ window_hi DueNow == 0.08
     ∧ window_lo Overdue == -1.1 ∧ window_hi Overdue == -0.9)%Q
  ∧ (∀ h task_id sent w,
       select_branch h task_id sent = Some w ↔
       in_window w h = true ∧ reminder_key task_id w ∉ sent)
  ∧ (∀ due now,
       datetime_sub due now = inr (3600 * 1000000) →
       (hours_of (3600 * 1000000) == 1)%Q
       ∧ in_window PreDue (hours_of (3600 * 1000000)) = true)
  ∧ (∀ w, (hours_of (4140 * 1000000) == 1.15)%Q
          ∧ in_window w (hours_of (4140 * 1000000)) = false).
Proof.
  split; [exact in_window_exclusive|].
  split; [intros h w; apply in_window_spec|].
  split; [repeat split; reflexivity|].
  split; [exact select_branch_spec|].
  split; [intros _ _ _; split; reflexivity|].
  intros []; split; reflexivity.
Qed.

(** C2 at a concrete task: due at 12:00, seen at 11:00. *)
Lemma window_classification_witness :
  datetime_sub {| wall := 12 * 3600 * 1000000; tzinfo := None |}
               {| wall := 11 * 3600 * 1000000; tzinfo := None |}
  = inr (3600 * 1000000)
  ∧ in_window PreDue (hours_of (3600 * 1000000)) = true
  ∧ select_branch (hours_of (3600 * 1000000)) (VStr "t1") ∅ = Some PreDue.
Proof.
  pose proof window_classification as (_ & _ & _ & Hsel & Hone & _).
  split; [reflexivity|].
  split.
  - apply (Hone {| wall := 12 * 3600 * 1000000; tzinfo := None |}
                {| wall := 11 * 3600 * 1000000; tzinfo := None |}).
    reflexivity.
  - apply Hsel. split; [reflexivity | set_solver].
Defined.

(** ** What a step leaves alone *)

Section Frames.
Context `{Platform}.
Variable email_service : EmailService.

Lemma wire_io evs : Forall is_wire evs → Forall is_io evs.
Proof. intros F. eapply Forall_impl; [exact F|]. by intros []. Qed.

Lemma extends_refl s : extends s s [].
Proof. unfold extends. by rewrite app_nil_r. Qed.

Lemma extends_trans s1 s2 s3 evs1 evs2 :
  extends s1 s2 evs1 → extends s2 s3 evs2 → extends s1 s3 (evs1 ++ evs2).
Proof.
  unfold extends. intros (-> & -> & -> & ->) (-> & -> & -> & ->).
  by rewrite app_assoc.
Qed.

Lemma emit_extends e s : extends s (emit e s).2 [e].
Proof. done. Qed.

Lemma call_extends {A} (f : world → A * world) s :
  extends s (call f s).2 [].
Proof.
  unfold call, extends. destruct (f (ext s)); simpl. by rewrite app_nil_r.
Qed.

Lemma call_value {A} (f : world → A * world) s :
  (call f s).1 = inr (f (ext s)).1.
Proof. unfold call. by destruct (f (ext s)). Qed.

(** C9, first half: the mail adapter always returns a boolean. *)
Lemma send_task_reminder_frame recipient task s :
  ∃ b s' evs,
    send_task_reminder email_service recipient task s = (inr b, s')
    ∧ extends s s' evs ∧ Forall is_wire evs.
Proof.
  unfold send_task_reminder.
  destruct (negb (configured (sender_email email_service))
            || negb (configured (sender_password email_service))).
  { exists false, s, []. split; [done|]. split; [apply extends_refl|constructor]. }
  unfold try_except, bind, deref, lift, emit, ret, raise. simpl.
  destruct (build_message _ _ _) as [e|msg]; simpl.
  { exists false, s, []. split; [done|]. split; [apply extends_refl|constructor]. }
  unfold call; simpl.
  destruct (smtp_deliver _ _ _ _ _ _) as [[e|] w]; simpl.
  - eexists false, _, [EvSmtp msg]. split; [done|].
    split; [done|]. by repeat constructor.
  - eexists true, _, [EvSmtp msg]. split; [done|].
    split; [done|]. by repeat constructor.
Qed.

Lemma bind_emit {A} e (k : unit → M A) s :
  bind (emit e) k s = k tt (emit e s).2.
Proof. done. Qed.

Lemma http_frame r s :
  ∃ x s', http r s = (x, s') ∧ extends s s' [EvHttpGet r].
Proof.
  unfold http, bind, emit, call, lift; simpl.
  destruct (http_get r (ext s)) as [[e|resp] w]; simpl;
    eexists _, _; (split; [reflexivity|]); done.
Qed.

Lemma lookup_user_email_frame user_id s :
  ∃ x s' evs,
    lookup_user_email user_id s = (x, s')
    ∧ extends s s' evs ∧ Forall is_wire evs.
Proof.
  unfold lookup_user_email, bind.
  destruct (http_frame (GetProfiles ("eq." +:+ str user_id)) s)
    as (x1 & s1 & E1 & X1).
  rewrite E1.
  assert (Forall is_wire [EvHttpGet (GetProfiles ("eq." +:+ str user_id))])
    as F1 by (by repeat constructor).
  destruct x1 as [e|response]; [by eauto 10|].
  destruct (status_code response =? 200); [|by eexists _, _, _].
  unfold lift at 1. destruct (body response) as [e|profiles]; [by eauto 10|].
  destruct (json_truthy profiles); [|by eexists _, _, _].
  destruct (http_frame (GetAuthUser (str user_id)) s1) as (x2 & s2 & E2 & X2).
  rewrite E2.
  pose proof (extends_trans _ _ _ _ _ X1 X2) as X12.
  assert (Forall is_wire
            ([EvHttpGet (GetProfiles ("eq." +:+ str user_id))]
             ++ [EvHttpGet (GetAuthUser (str user_id))]))
    as F2 by (by repeat constructor).
  destruct x2 as [e|auth_response]; [by eauto 10|].
  destruct (status_code auth_response =? 200); [|by eexists _, _, _].
  unfold lift. destruct (body auth_response) as [e|user_data]; [by eauto 10|].
  destruct (json_get user_data "email"); by eexists _, _, _.
Qed.

(** [_get_user_email] never raises: it announces itself, talks to the HTTP
    service and returns a dict. *)
Lemma _get_user_email_frame user_id s :
  ∃ user_data s' evs,
    _get_user_email user_id s = (inr user_data, s')
    ∧ extends s s' (EvResolve user_id :: evs) ∧ Forall is_wire evs.
Proof.
  unfold _get_user_email. rewrite bind_emit. unfold bind, try_except.
  destruct (lookup_user_email_frame user_id (emit (EvResolve user_id) s).2)
    as (x & s' & evs & E & X & F).
  rewrite E.
  pose proof (extends_trans _ _ _ _ _ (emit_extends (EvResolve user_id) s) X)
    as X'.
  destruct x as [e|r]; by eexists _, _, _.
Qed.

(** One call site: the adapter is called once, on the dict [arg] holds, and
    the key and the counter follow its answer. *)
Lemma remind_spec key recipient arg s :
  ∃ success s0 s' evs,
    send_task_reminder email_service recipient arg s = (inr success, s0)
    ∧ remind email_service key recipient arg s = (inr tt, s')
    ∧ heap s' = heap s
    ∧ out s' = out s ++ evs
               ++ [EvRemind key recipient (default ∅ (heap s !! arg)) success]
    ∧ Forall is_wire evs
    ∧ sent_reminders s' =
        (if success then {[key]} ∪ sent_reminders s else sent_reminders s)
    ∧ reminder_sent_count s' =
        (if success then S (reminder_sent_count s)
         else reminder_sent_count s).
Proof.
  destruct (send_task_reminder_frame recipient arg s)
    as (b & s0 & evs & E & (Hs & Hc & Hh & Ho) & F).
  exists b, s0. unfold remind, bind. rewrite E.
  unfold deref, emit, record_result, bind, add_sent, incr_count, set_count, ret.
  simpl. rewrite Hh, Ho, Hs, Hc, <- !app_assoc.
  destruct b; simpl; eexists _, evs;
    (split; [reflexivity|]); (split; [reflexivity|]); done.
Qed.

(** ** One task *)

Lemma getitem_inr d k v : getitem d k = inr v → d !! k = Some v.
Proof. unfold getitem. destruct (d !! k); naive_solver. Qed.

Lemma alter_fresh {A} (f : A → A) (l : list A) (x : A) :
  alter f (length l) (l ++ [x]) = l ++ [f x].
Proof.
  replace (length l) with (length l + 0)%nat by lia.
  by rewrite alter_app_r.
Qed.

Lemma lookup_fresh {A} (l : list A) (x : A) :
  (l ++ [x]) !! length l = Some x.
Proof. by rewrite list_lookup_middle. Qed.

(** The inner [try] block, for a task the loop does not skip: when it
    raises, it has been quiet. *)
Lemma task_body_step now task s :
  skipped (default ∅ (heap s !! task)) = false →
  ∃ r s', task_body email_service now task s = (r, s')
          ∧ task_step now task s s'
          ∧ ((∃ e, r = inl e) → ∃ evs, extends s s' evs ∧ Forall is_io evs).
Proof.
  intros Hlive.
  assert (∀ r, ∃ (r0 : exn + unit) s', (r, s) = (r0, s')
               ∧ task_step now task s s'
               ∧ ((∃ e, r0 = inl e) →
                  ∃ evs, extends s s' evs ∧ Forall is_io evs)) as Hquiet0.
  { intros r. exists r, s. split; [done|].
    split; [eapply step_quiet; [apply extends_refl|constructor]|].
    intros _. exists []. split; [apply extends_refl|constructor]. }
  unfold task_body, bind, deref, lift. simpl.
  set (d := default ∅ (heap s !! task)) in *.
  destruct (parse_due_date d) as [e|due] eqn:Ep; [apply Hquiet0|].
  destruct (getitem d "id") as [e|task_id] eqn:Eid; [apply Hquiet0|].
  destruct (getitem d "auth_users_id") as [e|user_id] eqn:Euid;
    [apply Hquiet0|].
  destruct (datetime_sub due now) as [e|td] eqn:Etd; [apply Hquiet0|].
  destruct (_get_user_email_frame user_id s)
    as (user_data & s1 & evs1 & E1 & X1 & F1).
  rewrite E1.
  assert (Forall is_io (EvResolve user_id :: evs1)) as F1'
    by (constructor; [done|by apply wire_io]).
  assert (∀ r, ∃ (r0 : exn + unit) s', (r, s1) = (r0, s')
               ∧ task_step now task s s'
               ∧ ((∃ e, r0 = inl e) →
                  ∃ evs, extends s s' evs ∧ Forall is_io evs)) as Hquiet1.
  { intros r. exists r, s1. split; [done|].
    split; [by eapply step_quiet|]. eauto. }
  destruct (bool_decide (user_data = ∅)); [apply Hquiet1|].
  destruct (truthy (dict_get user_data "email")) eqn:Eemail; simpl;
    [|apply Hquiet1].
  destruct X1 as (Hs1 & Hc1 & Hh1 & Ho1).
  destruct (select_branch _ _ _) as [w|] eqn:Esel; [|apply Hquiet1].
  apply select_branch_spec in Esel as [Hw Hk]. rewrite Hs1 in Hk.
  destruct (getitem d "title") as [e|title] eqn:Et;
    [destruct w; apply Hquiet1|].
  assert (is_Some (d !! "title")) as Htitle
    by (apply getitem_inr in Et; eauto).
  assert (dict_get d "title" = title) as Hdt
    by (unfold dict_get; apply getitem_inr in Et; by rewrite Et).
  assert (default ∅ (heap s1 !! task) = d) as Hd1 by (by rewrite Hh1).
  destruct w; simpl;
    match goal with
    | |- context [remind _ ?k ?rc ?arg ?st] =>
        destruct (remind_spec k rc arg st)
          as (success & s0 & s' & evs & _ & E & Hh & Ho & F & Hs & Hc);
        rewrite E; exists (inr tt), s'; (split; [done|]);
        (split; [|by intros [? ?]])
    end.
  - eapply (step_remind now task s s' d due task_id user_id td PreDue _ success
              (evs1 ++ evs)); try done.
    + by rewrite Hh, Hh1, app_nil_r.
    + rewrite Ho, Ho1, Hd1, <- !app_assoc. simpl. by rewrite <- !app_assoc.
    + by apply Forall_app.
    + by rewrite Hs, Hs1.
    + by rewrite Hc, Hc1.
  - eapply (step_remind now task s s' d due task_id user_id td DueNow _ success
              (evs1 ++ evs)); try done.
    + by rewrite Hh, Hh1, app_nil_r.
    + rewrite Ho, Ho1, Hd1, <- !app_assoc. simpl. by rewrite <- !app_assoc.
    + by apply Forall_app.
    + by rewrite Hs, Hs1.
    + by rewrite Hc, Hc1.
  - simpl in *. rewrite alter_fresh in *. rewrite lookup_fresh in Ho.
    simpl in Ho.
    eapply (step_remind now task s s' d due task_id user_id td Overdue _
              success (evs1 ++ evs)); try done.
    + rewrite Hh, Hd1, Hh1. simpl. by rewrite Hdt.
    + rewrite Ho, Ho1, Hd1, <- !app_assoc. simpl.
      by rewrite Hdt, <- !app_assoc.
    + by apply Forall_app.
    + by rewrite Hs, Hs1.
    + by rewrite Hc, Hc1.
Qed.

(** One iteration of the loop never raises and is a [task_step]. *)
Lemma process_task_step now task s :
  ∃ s', process_task email_service now task s = (inr tt, s')
        ∧ task_step now task s s'.
Proof.
  unfold process_task, bind, deref. simpl.
  destruct (skipped (default ∅ (heap s !! task))) eqn:Esk.
  { exists s. split; [done|].
    eapply step_quiet; [apply extends_refl|constructor]. }
  destruct (task_body_step now task s Esk) as (r & s' & E & Hstep & Hexn).
  unfold try_except. rewrite E. destruct r as [e|[]]; by exists s'.
Qed.

(** ** The loop *)

(** The loop never raises: every task of the list gets its iteration. *)
Lemma for_each_steps now tasks s :
  ∃ s', for_each (process_task email_service now) tasks s = (inr tt, s')
        ∧ loop_steps now tasks s s'.
Proof.
  revert s. induction tasks as [|task tasks IH]; intros s; simpl.
  - exists s. split; [done|constructor].
  - destruct (process_task_step now task s) as (s1 & E1 & Hstep).
    destruct (IH s1) as (s2 & E2 & Hloop).
    exists s2. unfold bind. rewrite E1. split; [done|].
    by econstructor.
Qed.

Lemma sent_copy_skipped w d : skipped (sent_copy w d) = skipped d.
Proof.
  destruct w; try done. unfold sent_copy, skipped, dict_get.
  by rewrite !lookup_insert_ne.
Qed.

Lemma loop_event_io sent0 e : is_io e → loop_event sent0 e.
Proof. by destruct e. Qed.

Lemma loop_event_mono sent0 sent1 e :
  sent0 ⊆ sent1 → loop_event sent1 e → loop_event sent0 e.
Proof.
  intros Hsub. destruct e; simpl; try done.
  intros [Hk ?]. split; [|done]. intros Hin. by apply Hk, Hsub.
Qed.

Lemma grows_refl s : grows s s.
Proof.
  split; [done|]. split; [exists []; by rewrite app_nil_r|].
  exists []. by rewrite app_nil_r.
Qed.

Lemma grows_trans s1 s2 s3 : grows s1 s2 → grows s2 s3 → grows s1 s3.
Proof.
  intros (Hs1 & [x1 Hh1] & evs1 & Ho1 & F1) (Hs2 & [x2 Hh2] & evs2 & Ho2 & F2).
  split; [set_solver|].
  split; [exists (x1 ++ x2); by rewrite Hh2, Hh1, app_assoc|].
  exists (evs1 ++ evs2). split; [by rewrite Ho2, Ho1, app_assoc|].
  apply Forall_app. split; [done|].
  eapply Forall_impl; [exact F2|]. intros e. by apply loop_event_mono.
Qed.

Lemma task_step_grows now task s s' : task_step now task s s' → grows s s'.
Proof.
  intros [evs (Hs & Hc & Hh & Ho) F
         |d due task_id user_id td w recipient success evs
            -> Hlive Hp Hid Huid Htd Hw Hk Hr Ht Hh Ho F Hs Hc].
  - split; [by rewrite Hs|].
    split; [exists []; by rewrite app_nil_r|].
    exists evs. split; [done|].
    eapply Forall_impl; [exact F|]. intros e. apply loop_event_io.
  - split; [rewrite Hs; destruct success; [apply union_subseteq_r|done]|].
    split; [by eexists|].
    eexists. split; [exact Ho|].
    apply Forall_app. split.
    + constructor; [done|]. apply wire_io in F.
      eapply Forall_impl; [exact F|]. intros e. apply loop_event_io.
    + repeat constructor; [done|]. by rewrite sent_copy_skipped.
Qed.

Lemma loop_steps_grows now tasks s s' :
  loop_steps now tasks s s' → grows s s'.
Proof.
  induction 1 as [s|task tasks s s1 s2 Hstep _ IH]; [apply grows_refl|].
  eapply grows_trans; [by eapply task_step_grows|done].
Qed.

(** ** One pass *)

Lemma alloc_all_spec rows s :
  ∃ s', alloc_all rows s = (inr (seq (length (heap s)) (length rows)), s')
        ∧ sent_reminders s' = sent_reminders s
        ∧ reminder_sent_count s' = reminder_sent_count s
        ∧ heap s' = heap s ++ rows
        ∧ out s' = out s
        ∧ ext s' = ext s.
Proof.
  revert s. induction rows as [|d rows IH]; intros s; simpl.
  - exists s. by rewrite app_nil_r.
  - unfold bind, alloc. simpl.
    destruct (IH {| sent_reminders := sent_reminders s;
                    reminder_sent_count := reminder_sent_count s;
                    heap := heap s ++ [d]; out := out s; ext := ext s |})
      as (s' & E & Hs & Hc & Hh & Ho & Hw).
    simpl in *. rewrite length_app in E. simpl in E.
    replace (length (heap s) + 1)%nat with (S (length (heap s))) in E by lia.
    rewrite E. exists s'. by rewrite <- app_assoc in Hh.
Qed.

#[local] Arguments for_each : simpl never.

(** No exception escapes a pass, and a pass is a [pass_outcome]. *)
Lemma check_task_reminders_spec s :
  ∃ s', check_task_reminders email_service s = (inr tt, s')
        ∧ pass_outcome email_service s s'.
Proof.
  unfold check_task_reminders, try_except, pass_body.
  rewrite bind_emit. unfold bind at 1. unfold call. simpl.
  destruct (db_query_tasks (ext s)) as [answer w] eqn:Eq. simpl.
  unfold bind at 1, lift.
  destruct answer as [e|rows].
  { eexists. split; [done|]. apply pass_idle; try done.
    left. exists e. by rewrite Eq. }
  match goal with
  | |- context [bind (alloc_all rows) _ ?st] =>
      destruct (alloc_all_spec rows st) as (s0 & E0 & Hs0 & Hc0 & Hh0 & Ho0 & Hw0)
  end.
  unfold bind at 1. rewrite E0. simpl in *.
  destruct rows as [|row rows]; simpl.
  { exists s0. split; [done|]. apply pass_idle; try done.
    - right. by rewrite Eq.
    - by rewrite Hh0, app_nil_r. }
  unfold bind at 1. simpl. destruct (clock (ext s0)) as [t w'] eqn:Ec. simpl.
  unfold bind at 1, set_count. simpl.
  match goal with
  | |- context [bind (for_each _ ?ls) _ ?st] =>
      destruct (for_each_steps {| wall := t; tzinfo := None |} ls st)
        as (s1 & E1 & Hloop)
  end.
  unfold bind. simpl in *. rewrite E1.
  destruct (_cleanup_old_reminders s1) as [r s'] eqn:E2.
  assert (r = inr tt) as ->.
  { unfold _cleanup_old_reminders in E2.
    destruct (1000 <? size (sent_reminders s1))%nat; by inversion E2. }
  exists s'. split; [done|].
  eapply (pass_ran email_service s s' (row :: rows) _ _ s1); [by rewrite Eq|done|..];
    [| | | |exact E1|exact Hloop|exact E2]; done.
Qed.

Lemma cleanup_spec s s' :
  _cleanup_old_reminders s = (inr tt, s') →
  ((1000 < size (sent_reminders s))%nat
   ∧ sent_reminders s' = ∅
   ∧ out s' = out s ++ [EvClear]
   ∧ heap s' = heap s
   ∧ reminder_sent_count s' = reminder_sent_count s)
  ∨ ((size (sent_reminders s) ≤ 1000)%nat ∧ s' = s).
Proof.
  unfold _cleanup_old_reminders.
  destruct (1000 <? size (sent_reminders s))%nat eqn:E; intros [= <-].
  - left. apply Nat.ltb_lt in E. done.
  - right. apply Nat.ltb_ge in E. done.
Qed.

(** ** The set and the trace *)

Lemma replay_snoc tr e : replay (tr ++ [e]) = apply_event (replay tr) e.
Proof. unfold replay. by rewrite fold_left_app. Qed.

Lemma replay_app_io tr evs : Forall is_io evs → replay (tr ++ evs) = replay tr.
Proof.
  induction evs as [|e evs IH] using rev_ind; intros F.
  - by rewrite app_nil_r.
  - apply Forall_app in F as [F Fe]. rewrite app_assoc, replay_snoc, IH by done.
    rewrite Forall_singleton in Fe. destruct e; simpl in *; done.
Qed.

Lemma deduped_snoc tr e :
  deduped tr →
  (∀ key recipient task success,
     e = EvRemind key recipient task success → key ∉ replay tr) →
  deduped (tr ++ [e]).
Proof.
  intros Hd He j key recipient task success Hj.
  destruct (decide (j < length tr)%nat) as [Hlt|Hge].
  - rewrite lookup_app_l in Hj by done.
    rewrite take_app_le by lia. by eapply Hd.
  - assert (j = length tr) as ->.
    { apply lookup_lt_Some in Hj. rewrite length_app in Hj. simpl in Hj. lia. }
    rewrite list_lookup_middle in Hj by done. injection Hj as ->.
    rewrite take_app_length. by eapply He.
Qed.

Lemma deduped_app_io tr evs : deduped tr → Forall is_io evs → deduped (tr ++ evs).
Proof.
  intros Hd. induction evs as [|e evs IH] using rev_ind; intros F.
  - by rewrite app_nil_r.
  - apply Forall_app in F as [F Fe]. rewrite app_assoc.
    apply deduped_snoc; [by apply IH|].
    intros key recipient task success ->.
    by rewrite Forall_singleton in Fe.
Qed.

Lemma consistent_io base s s' evs :
  consistent base s → extends s s' evs → Forall is_io evs →
  consistent base s'.
Proof.
  intros (evs0 & Ho0 & Hsub & Hd) (Hs & _ & _ & Ho) F.
  exists (evs0 ++ evs). split; [by rewrite Ho, Ho0, app_assoc|]. split.
  - by rewrite Hs, replay_app_io.
  - by apply deduped_app_io.
Qed.

Lemma task_step_consistent base now task s s' :
  task_step now task s s' → consistent base s → consistent base s'.
Proof.
  intros [evs X F
         |d due task_id user_id td w recipient success evs
            -> Hlive Hp Hid Huid Htd Hw Hk Hr Ht Hh Ho F0 Hs Hc] Hcons.
  - by eapply consistent_io.
  - destruct Hcons as (evs0 & Ho0 & Hsub & Hd).
    assert (Forall is_io (EvResolve user_id :: evs)) as F
      by (constructor; [done|by apply wire_io]).
    eexists. split; [by rewrite Ho, Ho0, <- app_assoc, (app_assoc evs0)|].
    split.
    + rewrite replay_snoc, replay_app_io, Hs by done.
      destruct success; simpl; [|done].
      by apply union_mono_l.
    + apply deduped_snoc; [by apply deduped_app_io|].
      intros key ? ? ? [= <- _ _ _]. rewrite replay_app_io by done.
      intros Hin. by apply Hk, Hsub.
Qed.

Lemma loop_steps_consistent base now tasks s s' :
  loop_steps now tasks s s' → consistent base s → consistent base s'.
Proof.
  induction 1; eauto using task_step_consistent.
Qed.

Lemma consistent_snoc_other base s s' e :
  consistent base s →
  sent_reminders s' = sent_reminders s →
  out s' = out s ++ [e] →
  (∀ acc, apply_event acc e = acc) →
  ¬ is_remind e →
  consistent base s'.
Proof.
  intros (evs0 & Ho0 & Hsub & Hd) Hs Ho He Hn.
  exists (evs0 ++ [e]). split; [by rewrite Ho, Ho0, app_assoc|]. split.
  - by rewrite Hs, replay_snoc, He.
  - apply deduped_snoc; [done|].
    intros ? ? ? ? ->. by destruct Hn.
Qed.

Lemma pass_outcome_consistent base s s' :
  pass_outcome email_service s s' → consistent base s → consistent base s'.
Proof.
  intros [Hq Hs Hc Hh Ho|rows now s0 s1 Hq Hne Hs0 Hh0 Ho0 Hc0 _ Hloop Hclean] Hcons.
  - eapply consistent_snoc_other; [exact Hcons|exact Hs|exact Ho|done|].
    by intros [].
  - assert (consistent base s0) as Hcons0.
    { eapply consistent_snoc_other; [exact Hcons|exact Hs0|exact Ho0|done|].
      by intros []. }
    pose proof (loop_steps_consistent _ _ _ _ _ Hloop Hcons0)
      as (evs1 & Ho1 & Hsub1 & Hd1).
    apply cleanup_spec in Hclean as [(_ & Hs & Ho & _ & _)|[_ ->]];
      [|by exists evs1].
    exists (evs1 ++ [EvClear]). split; [by rewrite Ho, Ho1, app_assoc|]. split.
    + by rewrite replay_snoc.
    + by apply deduped_snoc.
Qed.

Lemma run_passes_consistent base n s :
  consistent base s → consistent base (run_passes email_service n s).2.
Proof.
  revert s. induction n as [|n IH]; intros s Hcons; [done|].
  simpl. unfold bind.
  destruct (check_task_reminders_spec s) as (s' & E & Hout).
  rewrite E. apply IH. by eapply pass_outcome_consistent.
Qed.

Lemma consistent_start s : consistent (out s) s.
Proof.
  exists []. split; [by rewrite app_nil_r|]. split; [done|].
  intros j ? ? ? ? Hj. by rewrite lookup_nil in Hj.
Qed.

(** After a successful reminder for a key, the key is in the set the trace
    tells until the set is cleared. *)
Lemma replay_keeps tr i j key recipient task :
  tr !! i = Some (EvRemind key recipient task true) →
  (i < j)%nat → (j ≤ length tr)%nat →
  key ∈ replay (take j tr)
  ∨ ∃ m, (i < m < j)%nat ∧ tr !! m = Some EvClear.
Proof.
  intros Hi Hij. induction Hij as [|j Hij IH]; intros Hlen.
  - left. rewrite (take_S_r _ _ _ Hi), replay_snoc. simpl.
    apply elem_of_union_l. by apply elem_of_singleton.
  - destruct (lookup_lt_is_Some_2 tr j) as [e He]; [lia|].
    destruct IH as [Hin|(m & Hm & Hclear)]; [lia| |].
    + rewrite (take_S_r _ _ _ He), replay_snoc.
      destruct e as [| | | |key' ? ? []|]; simpl; try by left.
      * left. by apply elem_of_union_r.
      * right. exists j. split; [lia|done].
    + right. exists m. split; [lia|done].
Qed.

Lemma deduped_separated tr i j key recipient task recipient' task' success' :
  deduped tr →
  (i < j)%nat →
  tr !! i = Some (EvRemind key recipient task true) →
  tr !! j = Some (EvRemind key recipient' task' success') →
  ∃ m, (i < m < j)%nat ∧ tr !! m = Some EvClear.
Proof.
  intros Hd Hij Hi Hj.
  destruct (replay_keeps tr i j key recipient task Hi Hij) as [Hin|Hm];
    [by apply Nat.lt_le_incl, (lookup_lt_Some _ _ _ Hj)| |done].
  by destruct (Hd _ _ _ _ _ Hj).
Qed.

(** ** The events of a step *)

Lemma new_events_app s s' evs : out s' = out s ++ evs → new_events s s' = evs.
Proof. unfold new_events. intros ->. by rewrite drop_app_length. Qed.

Lemma loop_event_not_clear sent0 e : loop_event sent0 e → e ≠ EvClear.
Proof. by destruct e. Qed.

(** The events of a pass: the query, the events of the loop, and at most
    one clear, at the end. The heap keeps its objects. *)
Lemma pass_outcome_events s s' :
  pass_outcome email_service s s' →
  (∃ extra, heap s' = heap s ++ extra)
  ∧ ∃ evs tail,
      out s' = out s ++ EvDb DbQuery "tasks" :: evs ++ tail
      ∧ Forall (loop_event (sent_reminders s)) evs
      ∧ (tail = [] ∨ tail = [EvClear]).
Proof.
  intros [Hq Hs Hc Hh Ho|rows now s0 s1 Hq Hne Hs0 Hh0 Ho0 Hc0 _ Hloop Hclean].
  - split; [exists []; by rewrite app_nil_r|].
    exists [], []. split; [done|]. split; [constructor|by left].
  - apply loop_steps_grows in Hloop as (_ & [extra Hh1] & evs & Ho1 & F).
    rewrite Hs0 in F.
    apply cleanup_spec in Hclean as [(_ & _ & Ho & Hh & _)|[_ ->]].
    + split; [exists (rows ++ extra); by rewrite Hh, Hh1, Hh0, app_assoc|].
      exists evs, [EvClear]. split; [|by auto].
      by rewrite Ho, Ho1, Ho0, <- !app_assoc.
    + split; [exists (rows ++ extra); by rewrite Hh1, Hh0, app_assoc|].
      exists evs, []. split; [|by auto].
      by rewrite Ho1, Ho0, app_nil_r, <- !app_assoc.
Qed.

(** ** The claims about a pass *)

(** C1. A pass sends no reminder for a key that is in the set when the pass
    starts, whatever the clock and the collaborators say. Over any number of
    passes, from any state of the scheduler (the empty set of a fresh process
    among them): between a successful reminder for a key and any later call
    of the mail adapter for the same key, the set was cleared. *)
Theorem reminder_sent_at_most_once :
  (∀ s key recipient task success,
     key ∈ sent_reminders s →
     EvRemind key recipient task success
       ∉ new_events s (check_task_reminders email_service s).2)
  ∧ (∀ n s i j key recipient task recipient' task' success',
       (i < j)%nat →
       new_events s (run_passes email_service n s).2 !! i
         = Some (EvRemind key recipient task true) →
       new_events s (run_passes email_service n s).2 !! j
         = Some (EvRemind key recipient' task' success') →
       ∃ m, (i < m < j)%nat
            ∧ new_events s (run_passes email_service n s).2 !! m
              = Some EvClear).
Proof.
  split.
  - intros s key recipient task success Hin Hev.
    destruct (check_task_reminders_spec s) as (s' & E & Hout).
    rewrite E in Hev. simpl in Hev.
    apply pass_outcome_events in Hout as (_ & evs & tail & Ho & F & Htail).
    rewrite (new_events_app _ _ _ Ho) in Hev.
    apply elem_of_cons in Hev as [?|Hev]; [done|].
    apply elem_of_app in Hev as [Hev|Hev].
    + rewrite Forall_forall in F. by destruct (F _ Hev).
    + destruct Htail as [-> | ->]; [by apply elem_of_nil in Hev|].
      by apply list_elem_of_singleton in Hev.
  - intros n s i j key recipient task recipient' task' success' Hij Hi Hj.
    destruct (run_passes_consistent (out s) n s (consistent_start s))
      as (evs & Ho & _ & Hd).
    rewrite (new_events_app _ _ _ Ho) in *.
    by eapply deduped_separated.
Qed.

(** C3. A task whose status is 'completed', or without a due date, is
    skipped: its iteration leaves the machine as it is, so nothing is
    resolved or sent for it. And every reminder of a pass is about a task
    that has a due date and is not completed. *)
Theorem no_reminder_when_completed :
  (∀ d, dict_get d "status" = VStr "completed" → skipped d = true)
  ∧ (∀ d, d !! "due_date" = None ∨ truthy (dict_get d "due_date") = false →
          skipped d = true)
  ∧ (∀ now task s,
       skipped (default ∅ (heap s !! task)) = true →
       process_task email_service now task s = (inr tt, s))
  ∧ (∀ s key recipient task success,
       EvRemind key recipient task success
         ∈ new_events s (check_task_reminders email_service s).2 →
       skipped task = false).
Proof.
  split; [|split; [|split]].
  - intros d Hst. unfold skipped. rewrite Hst. apply orb_true_r.
  - intros d [Hd|Hd]; unfold skipped, dict_get in *; by rewrite Hd.
  - intros now task s Hsk. unfold process_task, bind, deref. simpl.
    by rewrite Hsk.
  - intros s key recipient task success Hev.
    destruct (check_task_reminders_spec s) as (s' & E & Hout).
    rewrite E in Hev. simpl in Hev.
    apply pass_outcome_events in Hout as (_ & evs & tail & Ho & F & Htail).
    rewrite (new_events_app _ _ _ Ho) in Hev.
    apply elem_of_cons in Hev as [?|Hev]; [done|].
    apply elem_of_app in Hev as [Hev|Hev].
    + rewrite Forall_forall in F. by destruct (F _ Hev).
    + destruct Htail as [-> | ->]; [by apply elem_of_nil in Hev|].
      by apply list_elem_of_singleton in Hev.
Qed.

(** C10. When the fetch raises or gives no task, the pass returns normally
    after the query alone: the set is the same, whatever its size, and it is
    not cleared; the counter and the heap are untouched. *)
Theorem idle_pass_keeps_state s :
  (∃ e, (db_query_tasks (ext s)).1 = inl e)
  ∨ (db_query_tasks (ext s)).1 = inr [] →
  (check_task_reminders email_service s).1 = inr tt
  ∧ sent_reminders (check_task_reminders email_service s).2 = sent_reminders s
  ∧ reminder_sent_count (check_task_reminders email_service s).2
    = reminder_sent_count s
  ∧ heap (check_task_reminders email_service s).2 = heap s
  ∧ new_events s (check_task_reminders email_service s).2
    = [EvDb DbQuery "tasks"].
Proof.
  intros Hq.
  destruct (check_task_reminders_spec s) as (s' & E & Hout).
  rewrite E. simpl. split; [done|].
  destruct Hout as [_ Hs Hc Hh Ho|rows now s0 s1 Hq' Hne _ _ _ _ _ _ _].
  - by rewrite (new_events_app _ _ _ Ho).
  - destruct Hq as [[e Hq]|Hq]; congruence.
Qed.

(** The due date the loop compares is naive. *)
Lemma parse_due_date_naive d due :
  parse_due_date d = inr due → tzinfo due = None.
Proof.
  unfold parse_due_date.
  destruct (getitem d "due_date") as [|v]; [done|].
  destruct (py_in "T" v) as [|has_T]; [done|].
  destruct (if has_T then _ else _) as [|dt]; [done|].
  intros [= <-]. by destruct (tzinfo dt) eqn:E.
Qed.

(** A task in a window whose key is not in the set, with a recipient and a
    title, does get its reminder: the mail adapter is called for it. *)
Lemma process_task_reminds now task s due task_id user_id user_data s1 w :
  skipped (default ∅ (heap s !! task)) = false →
  parse_due_date (default ∅ (heap s !! task)) = inr due →
  getitem (default ∅ (heap s !! task)) "id" = inr task_id →
  getitem (default ∅ (heap s !! task)) "auth_users_id" = inr user_id →
  is_Some (default ∅ (heap s !! task) !! "title") →
  tzinfo now = None →
  in_window w (hours_of (wall due - wall now)) = true →
  reminder_key task_id w ∉ sent_reminders s →
  _get_user_email user_id s = (inr user_data, s1) →
  truthy (dict_get user_data "email") = true →
  ∃ success,
    EvRemind (reminder_key task_id w) (dict_get user_data "email")
      (sent_copy w (default ∅ (heap s !! task))) success
    ∈ new_events s (process_task email_service now task s).2.
Proof.
  destruct (heap s !! task) as [d|] eqn:Eh; simpl;
    [|intros _ _ _ _ [? Ht]; by rewrite lookup_empty in Ht].
  intros Hlive Hp Hid Huid [title Htitle] Hnow Hw Hk E1 Hemail.
  destruct (_get_user_email_frame user_id s)
    as (ud & s1' & evs1 & E1' & (Hs1 & Hc1 & Hh1 & Ho1) & F1).
  rewrite E1 in E1'. injection E1' as <- <-.
  unfold process_task, bind, deref. simpl. rewrite Eh. simpl. rewrite Hlive.
  unfold try_except, task_body, bind, deref, lift. simpl. rewrite Eh. simpl.
  rewrite Hp, Hid, Huid.
  unfold datetime_sub. rewrite (parse_due_date_naive _ _ Hp), Hnow, E1.
  rewrite bool_decide_eq_false_2
    by (intros ->; unfold dict_get in Hemail; by rewrite lookup_empty in Hemail).
  rewrite Hemail. simpl.
  assert (select_branch (hours_of (wall due - wall now)) task_id
            (sent_reminders s1) = Some w) as ->
    by (apply select_branch_spec; by rewrite Hs1).
  unfold getitem. rewrite Htitle.
  assert (∀ key arg st,
            heap st !! arg = Some (sent_copy w d) →
            (∃ evs0, out st = out s ++ evs0) →
            ∃ success,
              EvRemind key (dict_get user_data "email") (sent_copy w d) success
              ∈ new_events s
                  (match remind email_service key
                           (dict_get user_data "email") arg st with
                   | (inl _, s') => ret tt s'
                   | r => r
                   end).2) as Hgo.
  { intros key arg st Harg [evs0 Hst].
    destruct (remind_spec key (dict_get user_data "email") arg st)
      as (success & _ & s' & evs & _ & E & _ & Ho & _).
    rewrite E, Harg in *. simpl in *. exists success.
    rewrite Hst, <- app_assoc in Ho. rewrite (new_events_app _ _ _ Ho).
    rewrite !elem_of_app. right. right. by apply list_elem_of_singleton. }
  destruct w; simpl.
  - apply Hgo; [by rewrite Hh1, Eh|eauto].
  - apply Hgo; [by rewrite Hh1, Eh|eauto].
  - rewrite alter_fresh. apply Hgo; simpl.
    + rewrite lookup_fresh, Hh1, Eh. unfold dict_get. by rewrite Htitle.
    + eauto.
Qed.

(** A reminder among the events of an iteration tells the whole story of
    the iteration. *)
Lemma process_task_remind_inv now task s key recipient tk success :
  EvRemind key recipient tk success
    ∈ new_events s (process_task email_service now task s).2 →
  ∃ due task_id user_id td w evs,
    skipped (default ∅ (heap s !! task)) = false
    ∧ parse_due_date (default ∅ (heap s !! task)) = inr due
    ∧ getitem (default ∅ (heap s !! task)) "id" = inr task_id
    ∧ getitem (default ∅ (heap s !! task)) "auth_users_id" = inr user_id
    ∧ new_events s (process_task email_service now task s).2
      = (EvResolve user_id :: evs) ++ [EvRemind key recipient tk success]
    ∧ Forall is_wire evs
    ∧ datetime_sub due now = inr td
    ∧ in_window w (hours_of td) = true
    ∧ key = reminder_key task_id w
    ∧ (key ∉ sent_reminders s)
    ∧ truthy recipient = true
    ∧ tk = sent_copy w (default ∅ (heap s !! task))
    ∧ sent_reminders (process_task email_service now task s).2 =
        (if success then {[key]} ∪ sent_reminders s else sent_reminders s)
    ∧ reminder_sent_count (process_task email_service now task s).2 =
        (if success then S (reminder_sent_count s)
         else reminder_sent_count s).
Proof.
  destruct (process_task_step now task s) as (s' & E & Hstep).
  rewrite E. simpl. intros Hev.
  destruct Hstep as [evs (Hs & Hc & Hh & Ho) F
                    |d due task_id user_id td w recipient0 success0 evs
                       -> Hlive Hp Hid Huid Htd Hw Hk Hr Ht Hh Ho F Hs Hc].
  - rewrite (new_events_app _ _ _ Ho) in Hev.
    rewrite Forall_forall in F. by destruct (F _ Hev).
  - rewrite (new_events_app _ _ _ Ho) in Hev.
    apply elem_of_app in Hev as [Hev|Hev].
    { apply elem_of_cons in Hev as [?|Hev]; [done|].
      rewrite Forall_forall in F. by destruct (F _ Hev). }
    apply list_elem_of_singleton in Hev. injection Hev as -> -> -> ->.
    exists due, task_id, user_id, td, w, evs.
    by rewrite (new_events_app _ _ _ Ho).
Qed.

(** C4. At each call site, and so for each task that reaches one: when the
    mail adapter answers [True] the key of the call site joins the set and
    the counter of the pass goes up by one; when it answers [False] the set
    and the counter stay, so the key is still absent and a later pass will
    try again. The adapter is only called for a key that is absent. *)
Theorem send_result_decides_key :
  (∀ key recipient arg s,
     ∃ success,
       (send_task_reminder email_service recipient arg s).1 = inr success
       ∧ sent_reminders (remind email_service key recipient arg s).2 =
           (if success then {[key]} ∪ sent_reminders s else sent_reminders s)
       ∧ reminder_sent_count (remind email_service key recipient arg s).2 =
           (if success then S (reminder_sent_count s)
            else reminder_sent_count s))
  ∧ (∀ now task s key recipient tk success,
       EvRemind key recipient tk success
         ∈ new_events s (process_task email_service now task s).2 →
       (key ∉ sent_reminders s)
       ∧ (success = true →
          sent_reminders (process_task email_service now task s).2
            = {[key]} ∪ sent_reminders s
          ∧ reminder_sent_count (process_task email_service now task s).2
            = S (reminder_sent_count s))
       ∧ (success = false →
          sent_reminders (process_task email_service now task s).2
            = sent_reminders s
          ∧ (key ∉ sent_reminders (process_task email_service now task s).2)
          ∧ reminder_sent_count (process_task email_service now task s).2
            = reminder_sent_count s)).
Proof.
  split.
  - intros key recipient arg s.
    destruct (remind_spec key recipient arg s)
      as (success & s0 & s' & evs & E0 & E & _ & _ & _ & Hs & Hc).
    exists success. by rewrite E0, E.
  - intros now task s key recipient tk success Hev.
    apply process_task_remind_inv in Hev
      as (due & task_id & user_id & td & w & evs & _ & _ & _ & _ & _ & _ & _
          & _ & _ & Hk & _ & _ & Hs & Hc).
    split; [done|]. split; intros ->; rewrite Hs, Hc; done.
Qed.

Lemma for_each_app now before after s :
  for_each (process_task email_service now) (before ++ after) s
  = for_each (process_task email_service now) after
      (for_each (process_task email_service now) before s).2.
Proof.
  revert s. induction before as [|task before IH]; intros s; [done|].
  simpl. unfold for_each at 1 3; fold (@for_each H loc). unfold bind.
  destruct (process_task_step now task s) as (s1 & E1 & _).
  rewrite E1. apply IH.
Qed.

(** A due date that [fromisoformat] rejects makes the parse raise. *)
Lemma parse_due_date_malformed d text e :
  d !! "due_date" = Some (VStr text) →
  fromisoformat (if str_in "T" text then str_replace "Z" "+00:00" text
                 else text) = inl e →
  parse_due_date d = inl e.
Proof.
  intros Hd He. unfold parse_due_date, getitem. rewrite Hd. simpl.
  destruct (str_in "T" text); simpl; by rewrite He.
Qed.

(** C5. No exception escapes a pass, and none escapes the loop. Whatever
    happens to a task, the tasks after it get their iteration, from the
    state the task left. When the body of the inner [try] raises, the
    iteration still ends normally and the task has been passed over: the
    set, the counter and the heap are as before and no reminder was sent.
    A task whose due date does not parse raises before anything is done, and
    leaves the machine as it found it; a string that [fromisoformat] rejects
    is such a due date. *)
Theorem task_failure_is_contained :
  (∀ s, (check_task_reminders email_service s).1 = inr tt)
  ∧ (∀ now tasks s,
       (for_each (process_task email_service now) tasks s).1 = inr tt)
  ∧ (∀ now before task after s,
       for_each (process_task email_service now) (before ++ task :: after) s
       = for_each (process_task email_service now) after
           (process_task email_service now task
              (for_each (process_task email_service now) before s).2).2)
  ∧ (∀ now task s e s1,
       skipped (default ∅ (heap s !! task)) = false →
       task_body email_service now task s = (inl e, s1) →
       process_task email_service now task s = (inr tt, s1)
       ∧ sent_reminders s1 = sent_reminders s
       ∧ reminder_sent_count s1 = reminder_sent_count s
       ∧ heap s1 = heap s
       ∧ Forall is_io (new_events s s1))
  ∧ (∀ now task s e,
       skipped (default ∅ (heap s !! task)) = false →
       parse_due_date (default ∅ (heap s !! task)) = inl e →
       task_body email_service now task s = (inl e, s)
       ∧ process_task email_service now task s = (inr tt, s))
  ∧ (∀ d text e,
       d !! "due_date" = Some (VStr text) →
       fromisoformat (if str_in "T" text then str_replace "Z" "+00:00" text
                      else text) = inl e →
       parse_due_date d = inl e).
Proof.
  split; [|split; [|split; [|split; [|split]]]].
  - intros s. by destruct (check_task_reminders_spec s) as (s' & -> & _).
  - intros now tasks s. by destruct (for_each_steps now tasks s) as (s' & -> & _).
  - intros now before task after s. rewrite for_each_app.
    unfold for_each at 1; fold (@for_each H loc). unfold bind.
    by destruct (process_task_step now task
                   (for_each (process_task email_service now) before s).2)
      as (s1 & -> & _).
  - intros now task s e s1 Hlive Hbody.
    destruct (task_body_step now task s Hlive) as (r & s' & E & _ & Hexn).
    rewrite Hbody in E. injection E as <- <-.
    destruct Hexn as (evs & (Hs & Hc & Hh & Ho) & F); [by eexists|].
    split.
    + unfold process_task, bind, deref, try_except. simpl.
      by rewrite Hlive, Hbody.
    + by rewrite (new_events_app _ _ _ Ho).
  - intros now task s e Hlive Hp.
    assert (task_body email_service now task s = (inl e, s)) as Hbody.
    { unfold task_body, bind, deref, lift. simpl. by rewrite Hp. }
    split; [done|].
    unfold process_task, bind, deref, try_except. simpl.
    by rewrite Hlive, Hbody.
  - exact parse_due_date_malformed.
Qed.

(** C6. The cleanup empties a set of more than 1000 keys and leaves any
    other set, and the whole machine, as it is. A pass that fetched tasks
    ends with the cleanup of the state its loop reached, so its set has at
    most 1000 keys. After a clear no key is in the set; and a task in a
    window whose key is not in the set, with a recipient and a title, has
    the mail adapter called for it again. *)
Theorem cleanup_bounds_the_set :
  (∀ s, (1000 < size (sent_reminders s))%nat →
        sent_reminders (_cleanup_old_reminders s).2 = ∅)
  ∧ (∀ s, (size (sent_reminders s) ≤ 1000)%nat →
          _cleanup_old_reminders s = (inr tt, s))
  ∧ (∀ s rows,
       (db_query_tasks (ext s)).1 = inr rows → rows ≠ [] →
       (∃ now s0,
          sent_reminders s0 = sent_reminders s
          ∧ heap s0 = heap s ++ rows
          ∧ (check_task_reminders email_service s).2
            = (_cleanup_old_reminders
                 (for_each (process_task email_service now)
                    (seq (length (heap s)) (length rows)) s0).2).2)
       ∧ (size (sent_reminders (check_task_reminders email_service s).2)
          ≤ 1000)%nat)
  ∧ (∀ s, EvClear ∈ new_events s (check_task_reminders email_service s).2 →
          sent_reminders (check_task_reminders email_service s).2 = ∅)
  ∧ (∀ now task s due task_id user_id user_data s1 w,
       skipped (default ∅ (heap s !! task)) = false →
       parse_due_date (default ∅ (heap s !! task)) = inr due →
       getitem (default ∅ (heap s !! task)) "id" = inr task_id →
       getitem (default ∅ (heap s !! task)) "auth_users_id" = inr user_id →
       is_Some (default ∅ (heap s !! task) !! "title") →
       tzinfo now = None →
       in_window w (hours_of (wall due - wall now)) = true →
       reminder_key task_id w ∉ sent_reminders s →
       _get_user_email user_id s = (inr user_data, s1) →
       truthy (dict_get user_data "email") = true →
       ∃ success,
         EvRemind (reminder_key task_id w) (dict_get user_data "email")
           (sent_copy w (default ∅ (heap s !! task))) success
         ∈ new_events s (process_task email_service now task s).2).
Proof.
  split; [|split; [|split; [|split]]].
  - intros s Hsz. unfold _cleanup_old_reminders.
    apply Nat.ltb_lt in Hsz. by rewrite Hsz.
  - intros s Hsz. unfold _cleanup_old_reminders.
    apply Nat.ltb_ge in Hsz. by rewrite Hsz.
  - intros s rows Hq Hne.
    destruct (check_task_reminders_spec s) as (s' & E & Hout).
    rewrite E. simpl.
    destruct Hout as [Hq' _ _ _ _
                     |rows' now s0 s1 Hq' _ Hs0 Hh0 _ _ Hfor _ Hclean].
    { destruct Hq' as [[e Hq']|Hq']; congruence. }
    assert (rows' = rows) as -> by congruence.
    split.
    + exists now, s0. rewrite Hfor. simpl. by rewrite Hclean.
    + apply cleanup_spec in Hclean as [(_ & -> & _)|[Hsz ->]]; [|done].
      rewrite size_empty. lia.
  - intros s Hev.
    destruct (check_task_reminders_spec s) as (s' & E & Hout).
    rewrite E in *. simpl in *.
    destruct Hout as [_ _ _ _ Ho
                     |rows now s0 s1 _ _ Hs0 _ Ho0 _ _ Hloop Hclean].
    { rewrite (new_events_app _ _ _ Ho) in Hev.
      by apply list_elem_of_singleton in Hev. }
    apply cleanup_spec in Hclean as [(_ & Hs & _)|[_ ->]]; [done|].
    apply loop_steps_grows in Hloop as (_ & _ & evs & Ho1 & F).
    rewrite Ho0, <- app_assoc in Ho1.
    rewrite (new_events_app _ _ _ Ho1) in Hev.
    apply elem_of_cons in Hev as [?|Hev]; [done|].
    rewrite Forall_forall in F. by destruct (F _ Hev).
  - exact process_task_reminds.
Qed.

(** C7. A reminder is sent with the task itself as its argument, except in
    the overdue window, where the argument is a new dict equal to the task
    but for its title, which is 'OVERDUE: ' followed by the title of the
    task. Every dict of the heap, whatever its location, is after an
    iteration and after a pass what it was before; the rows fetched by a
    pass are at the end of the pass as they were fetched. The only call to
    the store in a pass is a query. *)
Theorem overdue_reminder_uses_a_copy :
  (∀ now task s key recipient tk success,
     EvRemind key recipient tk success
       ∈ new_events s (process_task email_service now task s).2 →
     ∃ due td task_id w,
       parse_due_date (default ∅ (heap s !! task)) = inr due
       ∧ datetime_sub due now = inr td
       ∧ in_window w (hours_of td) = true
       ∧ getitem (default ∅ (heap s !! task)) "id" = inr task_id
       ∧ key = reminder_key task_id w
       ∧ tk = match w with
              | Overdue =>
                  <["title" :=
                      VStr ("OVERDUE: "
                            +:+ str (dict_get (default ∅ (heap s !! task))
                                       "title"))]>
                    (default ∅ (heap s !! task))
              | _ => default ∅ (heap s !! task)
              end)
  ∧ (∀ now task s l d,
       heap s !! l = Some d →
       heap (process_task email_service now task s).2 !! l = Some d)
  ∧ (∀ s l d,
       heap s !! l = Some d →
       heap (check_task_reminders email_service s).2 !! l = Some d)
  ∧ (∀ s rows i row,
       (db_query_tasks (ext s)).1 = inr rows →
       rows !! i = Some row →
       heap (check_task_reminders email_service s).2 !! (length (heap s) + i)%nat
       = Some row)
  ∧ (∀ s op table,
       EvDb op table ∈ new_events s (check_task_reminders email_service s).2 →
       op = DbQuery).
Proof.
  split; [|split; [|split; [|split]]].
  - intros now task s key recipient tk success Hev.
    apply process_task_remind_inv in Hev
      as (due & task_id & user_id & td & w & evs & _ & Hp & Hid & _ & _ & _
          & Htd & Hw & Hk & _ & _ & Htk & _).
    exists due, td, task_id, w. by destruct w.
  - intros now task s l d Hl.
    destruct (process_task_step now task s) as (s' & E & Hstep).
    rewrite E. simpl.
    apply task_step_grows in Hstep as (_ & [extra ->] & _).
    by apply lookup_app_l_Some.
  - intros s l d Hl.
    destruct (check_task_reminders_spec s) as (s' & E & Hout).
    rewrite E. simpl.
    apply pass_outcome_events in Hout as ([extra ->] & _).
    by apply lookup_app_l_Some.
  - intros s rows i row Hq Hi.
    destruct (check_task_reminders_spec s) as (s' & E & Hout).
    rewrite E. simpl.
    destruct Hout as [Hq' _ _ _ _
                     |rows' now s0 s1 Hq' _ _ Hh0 _ _ _ Hloop Hclean].
    { destruct Hq' as [[e Hq']|Hq']; [congruence|].
      rewrite Hq in Hq'. injection Hq' as ->. by rewrite lookup_nil in Hi. }
    assert (rows' = rows) as -> by congruence.
    apply loop_steps_grows in Hloop as (_ & [extra Hh1] & _).
    assert (heap s' = heap s1) as ->
      by (apply cleanup_spec in Hclean as [(_ & _ & _ & -> & _)|[_ ->]]; done).
    rewrite Hh1, Hh0. apply lookup_app_l_Some.
    by rewrite lookup_app_r, Nat.add_sub' by lia.
  - intros s op table Hev.
    destruct (check_task_reminders_spec s) as (s' & E & Hout).
    rewrite E in Hev. simpl in Hev.
    apply pass_outcome_events in Hout as (_ & evs & tail & Ho & F & Htail).
    rewrite (new_events_app _ _ _ Ho) in Hev.
    apply elem_of_cons in Hev as [[= -> _]|Hev]; [done|].
    apply elem_of_app in Hev as [Hev|Hev].
    + rewrite Forall_forall in F. by destruct (F _ Hev).
    + destruct Htail as [-> | ->]; [by apply elem_of_nil in Hev|].
      by apply list_elem_of_singleton in Hev.
Qed.

(** C9. The mail adapter never raises: it returns a boolean, and the
    boolean is [True] exactly when both credentials are configured, the
    message could be built from the task, and the SMTP session went through
    without an exception. *)
Theorem send_task_reminder_returns_bool recipient task s :
  ∃ b,
    (send_task_reminder email_service recipient task s).1 = inr b
    ∧ (b = true ↔
       configured (sender_email email_service) = true
       ∧ configured (sender_password email_service) = true
       ∧ ∃ msg,
           build_message (default "" (sender_email email_service))
             recipient (default ∅ (heap s !! task)) = inr msg
           ∧ (smtp_deliver (smtp_host email_service)
                (smtp_port email_service)
                (default "" (sender_email email_service))
                (default "" (sender_password email_service)) msg (ext s)).1
             = None).
Proof.
  unfold send_task_reminder.
  destruct (configured (sender_email email_service)) eqn:E1; simpl;
    [|exists false; split; [done|]; split; [done|]; by intros (? & _)].
  destruct (configured (sender_password email_service)) eqn:E2; simpl;
    [|exists false; split; [done|]; split; [done|]; by intros (_ & ? & _)].
  unfold try_except, bind, deref, lift, emit, call, ret, raise. simpl.
  destruct (build_message _ _ _) as [e|msg]; simpl.
  { exists false. split; [done|]. split; [done|]. by intros (_ & _ & ? & ? & _). }
  destruct (smtp_deliver _ _ _ _ _ _) as [[e|] w] eqn:Es; simpl.
  - exists false. split; [done|]. split; [done|].
    intros (_ & _ & msg' & [= <-] & Hnone). by rewrite Es in Hnone.
  - exists true. split; [done|]. split; [|done].
    intros _. split; [done|]. split; [done|]. exists msg. by rewrite Es.
Qed.

Lemma new_events_refl s : new_events s s = [].
Proof. unfold new_events. by rewrite drop_all. Qed.

Lemma wire_not_resolve evs u : Forall is_wire evs → EvResolve u ∉ evs.
Proof. rewrite Forall_forall. intros F Hin. by destruct (F _ Hin). Qed.

(** A task that is not skipped, whose due date parses and that has its two
    identifiers has its owner resolved, once and first, whatever its hours
    until due and whatever the set holds. *)
Lemma process_task_resolves now task s due task_id user_id :
  skipped (default ∅ (heap s !! task)) = false →
  parse_due_date (default ∅ (heap s !! task)) = inr due →
  getitem (default ∅ (heap s !! task)) "id" = inr task_id →
  getitem (default ∅ (heap s !! task)) "auth_users_id" = inr user_id →
  tzinfo now = None →
  ∃ evs,
    new_events s (process_task email_service now task s).2
    = EvResolve user_id :: evs
    ∧ ∀ u, EvResolve u ∉ evs.
Proof.
  intros Hlive Hp Hid Huid Hnow.
  destruct (_get_user_email_frame user_id s)
    as (user_data & s1 & evs1 & E1 & (Hs1 & Hc1 & Hh1 & Ho1) & F1).
  unfold process_task, bind, deref. simpl. rewrite Hlive.
  unfold try_except, task_body, bind, deref, lift. simpl.
  rewrite Hp, Hid, Huid.
  unfold datetime_sub. rewrite (parse_due_date_naive _ _ Hp), Hnow, E1.
  assert (∀ r : exn + unit,
            ∃ evs,
              new_events s (match r with
                            | inl _ => ret tt s1
                            | inr a => (inr a, s1)
                            end).2 = EvResolve user_id :: evs
              ∧ ∀ u, EvResolve u ∉ evs) as Hstop.
  { intros r. exists evs1.
    split; [destruct r; simpl; by apply new_events_app|].
    intros u. by apply wire_not_resolve. }
  assert (∀ key arg st,
            out st = out s1 →
            ∃ evs,
              new_events s
                (match remind email_service key
                         (dict_get user_data "email") arg st with
                 | (inl _, s') => ret tt s'
                 | r => r
                 end).2 = EvResolve user_id :: evs
              ∧ ∀ u, EvResolve u ∉ evs) as Hgo.
  { intros key arg st Hst.
    destruct (remind_spec key (dict_get user_data "email") arg st)
      as (success & _ & s' & evs & _ & E & _ & Ho & F & _).
    rewrite E. simpl. rewrite Hst, Ho1, <- app_assoc in Ho.
    eexists. split; [by apply new_events_app|].
    intros u Hin. simpl in Hin.
    apply elem_of_app in Hin as [Hin|Hin];
      [by apply (wire_not_resolve _ u F1)|].
    apply elem_of_app in Hin as [Hin|Hin];
      [by apply (wire_not_resolve _ u F)|].
    by apply list_elem_of_singleton in Hin. }
  destruct (bool_decide (user_data = ∅)); [apply (Hstop (inr tt))|].
  destruct (truthy (dict_get user_data "email")); simpl;
    [|apply (Hstop (inr tt))].
  destruct (select_branch _ _ _) as [w|]; [|apply (Hstop (inr tt))].
  destruct (getitem _ "title") as [e|title];
    [destruct w; apply (Hstop (inl e))|].
  destruct w; simpl; by apply Hgo.
Qed.

(** C8, as the code has it. The owner's email is resolved before the task
    is classified and before the set is consulted: exactly one resolution
    call is made, as the first thing, for every task that is not skipped,
    whose due date parses and that has the fields [id] and
    [auth_users_id], in a window or not, with its key in the set or not. No
    call at all is made for a task that is skipped or whose due date does
    not parse. A reminder is sent only after the resolution of its
    iteration. *)
Theorem owner_email_resolved_before_window :
  (∀ now task s due task_id user_id,
     skipped (default ∅ (heap s !! task)) = false →
     parse_due_date (default ∅ (heap s !! task)) = inr due →
     getitem (default ∅ (heap s !! task)) "id" = inr task_id →
     getitem (default ∅ (heap s !! task)) "auth_users_id" = inr user_id →
     tzinfo now = None →
     ∃ evs,
       new_events s (process_task email_service now task s).2
       = EvResolve user_id :: evs
       ∧ ∀ u, EvResolve u ∉ evs)
  ∧ (∀ now task s,
       skipped (default ∅ (heap s !! task)) = true
       ∨ (∃ e, parse_due_date (default ∅ (heap s !! task)) = inl e) →
       new_events s (process_task email_service now task s).2 = [])
  ∧ (∀ now task s key recipient tk success,
       EvRemind key recipient tk success
         ∈ new_events s (process_task email_service now task s).2 →
       ∃ user_id evs,
         getitem (default ∅ (heap s !! task)) "auth_users_id" = inr user_id
         ∧ new_events s (process_task email_service now task s).2
           = (EvResolve user_id :: evs) ++ [EvRemind key recipient tk success]
         ∧ Forall is_wire evs).
Proof.
  split; [exact process_task_resolves|]. split.
  - intros now task s Hcase.
    assert (process_task email_service now task s = (inr tt, s)) as ->;
      [|apply new_events_refl].
    unfold process_task, bind, deref, try_except. simpl.
    destruct (skipped (default ∅ (heap s !! task))) eqn:Hsk; [done|].
    destruct Hcase as [?|[e Hp]]; [done|].
    unfold task_body, bind, deref, lift. simpl. by rewrite Hp.
  - intros now task s key recipient tk success Hev.
    apply process_task_remind_inv in Hev
      as (due & task_id & user_id & td & w & evs & _ & _ & _ & Huid & Hnew & F
          & _).
    by exists user_id, evs.
Qed.

End Frames.

(** * Further properties of the backend *)

Section More.
Context `{Platform}.
Variable email_service : EmailService.

(** ** More about the scheduler and the mail adapter *)

(** *** Strings *)

Lemma str_replace_absent old new s :
  str_in old s = false → str_replace old new s = s.
Proof.
  unfold str_replace. induction s as [|c s IH]; [done|].
  simpl. intros Hin. apply orb_false_iff in Hin as [Hp Hin].
  destruct old as [|o old]; [done|].
  simpl in Hp. rewrite Hp. by rewrite IH.
Qed.

Lemma str_in_prefix old s : str_in old (old +:+ s) = true.
Proof.
  assert (String.prefix old (old +:+ s) = true) as Hp.
  { induction old as [|c old IH]; simpl; [by destruct s|].
    destruct (ascii_dec c c); [exact IH|done]. }
  destruct old; simpl; [by destruct s|].
  simpl in Hp. by rewrite Hp.
Qed.

Lemma key_suffix_inj a b w1 w2 :
  a +:+ window_suffix w1 = b +:+ window_suffix w2 → a = b ∧ w1 = w2.
Proof.
  revert b. induction a as [|c a IH]; intros b Heq.
  - destruct w1, w2; simpl in Heq;
      repeat (destruct b as [|? b]; simpl in Heq;
              [try discriminate Heq; try done
              |try discriminate Heq; injection Heq as ? Heq]).
  - destruct b as [|c' b].
    + exfalso. simpl in Heq. destruct w1, w2; simpl in Heq;
        injection Heq as ? Heq;
        repeat (destruct a as [|? a]; simpl in Heq;
                [try discriminate Heq
                |try discriminate Heq; injection Heq as ? Heq]).
    + simpl in Heq. injection Heq as -> Heq.
      destruct (IH _ Heq) as [-> ->]. done.
Qed.

(** *** [_get_user_email] *)



(** *** [EmailService.send_task_reminder] *)


(** X4. The overdue copy the scheduler makes and the message the adapter builds
    from it. The title of the copy is always a string, so every title goes
    through; the subject carries the prefix; the message has the overdue banner
    and notice; and the title it shows is the title of the task with every
    'OVERDUE: ' removed, which is the title itself when it has no such part. *)
Theorem overdue_copy_message sender recipient d title msg :
  d !! "title" = Some title →
  build_message sender recipient (sent_copy Overdue d) = inr msg →
  subject msg = "⏰ Task Reminder: OVERDUE: " +:+ str title
  ∧ heading_overdue (html msg) = true
  ∧ overdue_notice (html msg) = true
  ∧ shown_title (html msg) = str_replace "OVERDUE: " "" (str title)
  ∧ (str_in "OVERDUE: " (str title) = false →
     shown_title (html msg) = str title).
Proof.
  intros Ht.
  assert (∀ t, str_in "OVERDUE" ("OVERDUE: " +:+ t) = true) as Hbanner.
  { intros t. apply (str_in_prefix "OVERDUE" (": " +:+ t)). }
  assert (str_replace "OVERDUE: " "" ("OVERDUE: " +:+ str title)
          = str_replace "OVERDUE: " "" (str title)) as Hstrip
    by (unfold str_replace; destruct (str title); reflexivity).
  unfold build_message, sent_copy, getitem, dict_get, py_in, method_replace.
  rewrite Ht. cbn [default from_option]. unfold id.
  rewrite lookup_insert_eq, Hbanner, Hstrip.
  destruct (reminder_due_date _) as [e|due_date]; [done|].
  destruct (_ !! "priority") as [priority|]; [|done].
  destruct (method_upper priority) as [e|label]; [done|].
  intros [= <-]. cbn [subject html heading_overdue overdue_notice shown_title str].
  do 4 (split; [done|]).
  intros Hin. by apply str_replace_absent.
Qed.

(** X5. The due date of a task goes through the adapter as it went through the
    scheduler: when the due date has a 'T' (as the dates of the store have) or
    has no 'Z', and the scheduler could parse it, the adapter parses the same
    text, and the scheduler's due date is the adapter's without its offset. *)
Theorem adapter_parses_due_date_of_scheduler d text due :
  d !! "due_date" = Some (VStr text) →
  text ≠ "" →
  str_in "T" text = true ∨ str_in "Z" text = false →
  parse_due_date d = inr due →
  ∃ dt,
    reminder_due_date d = inr (Some dt)
    ∧ wall due = wall dt
    ∧ tzinfo due = None.
Proof.
  intros Hd Hne Hcase. unfold parse_due_date, reminder_due_date, getitem, dict_get.
  rewrite Hd. simpl.
  assert (negb (text =? "")%string = true) as ->
    by (apply negb_true_iff, String.eqb_neq, Hne).
  unfold py_in, method_replace, fromisoformat_value.
  destruct (str_in "T" text) eqn:ET; simpl.
  - destruct (fromisoformat _) as [e|dt]; [done|].
    intros [= <-]. exists dt. split; [done|].
    by destruct (tzinfo dt) eqn:Etz.
  - destruct Hcase as [?|Hz]; [done|]. rewrite str_replace_absent by done.
    destruct (fromisoformat text) as [e|dt]; [done|].
    intros [= <-]. exists dt. split; [done|].
    by destruct (tzinfo dt) eqn:Etz.
Qed.

(** *** The keys *)

(** X6. Two reminder keys are equal only for the same window and for task ids
    with the same text: the reminder of one window never stands for another
    window or another task. *)
Theorem reminder_key_injective id1 w1 id2 w2 :
  reminder_key id1 w1 = reminder_key id2 w2 ↔ str id1 = str id2 ∧ w1 = w2.
Proof.
  unfold reminder_key. split.
  - apply key_suffix_inj.
  - by intros [-> ->].
Qed.

(** *** The counter of the pass *)

Lemma successes_app evs1 evs2 :
  successes (evs1 ++ evs2) = (successes evs1 + successes evs2)%nat.
Proof.
  induction evs1 as [|e evs1 IH]; [done|].
  destruct e as [| | | |? ? ? []|]; simpl; by rewrite ?IH.
Qed.

Lemma successes_io evs : Forall is_io evs → successes evs = 0%nat.
Proof.
  induction 1 as [|e evs He _ IH]; [done|]. by destruct e.
Qed.

Lemma task_step_count now task s s' :
  task_step now task s s' →
  ∃ evs, out s' = out s ++ evs
         ∧ reminder_sent_count s' = (reminder_sent_count s + successes evs)%nat.
Proof.
  intros [evs (Hs & Hc & Hh & Ho) F
         |d due task_id user_id td w recipient success evs
            -> Hlive Hp Hid Huid Htd Hw Hk Hr Ht Hh Ho F Hs Hc].
  - exists evs. split; [done|]. rewrite successes_io by done. lia.
  - eexists. split; [exact Ho|].
    assert (Forall is_io (EvResolve user_id :: evs)) as F'
      by (constructor; [done|by apply wire_io]).
    rewrite successes_app, (successes_io _ F'), Hc.
    destruct success; simpl; lia.
Qed.

Lemma loop_steps_count now tasks s s' :
  loop_steps now tasks s s' →
  ∃ evs, out s' = out s ++ evs
         ∧ reminder_sent_count s' = (reminder_sent_count s + successes evs)%nat.
Proof.
  induction 1 as [s|task tasks s s1 s2 Hstep _ IH].
  - exists []. rewrite app_nil_r. split; [done|]. simpl. lia.
  - apply task_step_count in Hstep as (evs1 & Ho1 & Hc1).
    destruct IH as (evs2 & Ho2 & Hc2).
    exists (evs1 ++ evs2). split; [by rewrite Ho2, Ho1, app_assoc|].
    rewrite successes_app. lia.
Qed.

(** X7. At the end of a pass that fetched tasks, the counter the summary line
    reports is the number of reminders the pass sent with success. *)
Theorem counter_counts_successes s rows :
  (db_query_tasks (ext s)).1 = inr rows →
  rows ≠ [] →
  reminder_sent_count (check_task_reminders email_service s).2
  = successes (new_events s (check_task_reminders email_service s).2).
Proof.
  intros Hq Hne.
  destruct (check_task_reminders_spec email_service s) as (s' & E & Hout).
  rewrite E. simpl.
  destruct Hout as [Hq' _ _ _ _
                   |rows' now s0 s1 Hq' _ _ _ Ho0 Hc0 _ Hloop Hclean].
  { destruct Hq' as [[e Hq']|Hq']; congruence. }
  apply loop_steps_count in Hloop as (evs & Ho1 & Hc1).
  rewrite Hc0, Ho0, <- app_assoc in *.
  apply cleanup_spec in Hclean as [(_ & _ & Ho & _ & Hc)|[_ ->]].
  - rewrite Ho1, <- app_assoc in Ho.
    rewrite (new_events_app _ _ _ Ho), Hc, Hc1.
    change (EvDb DbQuery "tasks" :: evs) with ([EvDb DbQuery "tasks"] ++ evs).
    rewrite !successes_app. simpl. lia.
  - rewrite (new_events_app _ _ _ Ho1), Hc1.
    change (EvDb DbQuery "tasks" :: evs) with ([EvDb DbQuery "tasks"] ++ evs).
    rewrite !successes_app. simpl. lia.
Qed.

(** *** A mailer without credentials *)

Lemma send_task_reminder_unconfigured recipient task s :
  configured (sender_email email_service) = false
  ∨ configured (sender_password email_service) = false →
  send_task_reminder email_service recipient task s = (inr false, s).
Proof.
  unfold send_task_reminder. intros [-> | ->]; [done|].
  by rewrite orb_true_r.
Qed.

Lemma _get_user_email_unsent user_id s :
  Forall is_unsent (new_events s (_get_user_email user_id s).2).
Proof.
  unfold _get_user_email. rewrite bind_emit.
  unfold bind, try_except, lookup_user_email, bind, http, bind, emit, call,
    lift, ret, new_events. simpl.
  destruct (http_get (GetProfiles ("eq." +:+ str user_id)) (ext s))
    as [[e|response] w]; simpl;
    [rewrite <- app_assoc, drop_app_length; by repeat constructor|].
  destruct (status_code response =? 200); simpl;
    [|rewrite <- app_assoc, drop_app_length; by repeat constructor].
  destruct (body response) as [e|profiles]; simpl;
    [rewrite <- app_assoc, drop_app_length; by repeat constructor|].
  destruct (json_truthy profiles); simpl;
    [|rewrite <- app_assoc, drop_app_length; by repeat constructor].
  destruct (http_get (GetAuthUser (str user_id)) w)
    as [[e|auth_response] w']; simpl;
    [rewrite <- !app_assoc, drop_app_length; by repeat constructor|].
  destruct (status_code auth_response =? 200); simpl;
    [|rewrite <- !app_assoc, drop_app_length; by repeat constructor].
  destruct (body auth_response) as [e|[d|len|v]]; simpl;
    rewrite <- !app_assoc, drop_app_length; by repeat constructor.
Qed.

Lemma remind_unconfigured key recipient arg s :
  configured (sender_email email_service) = false
  ∨ configured (sender_password email_service) = false →
  ∃ s', remind email_service key recipient arg s = (inr tt, s')
        ∧ extends s s' [EvRemind key recipient (default ∅ (heap s !! arg)) false].
Proof.
  intros Hun.
  unfold remind, bind. rewrite send_task_reminder_unconfigured by done.
  unfold deref, emit, record_result, ret. simpl. by eexists.
Qed.

Lemma process_task_unconfigured now task s :
  configured (sender_email email_service) = false
  ∨ configured (sender_password email_service) = false →
  ∃ s' evs extra,
    process_task email_service now task s = (inr tt, s')
    ∧ sent_reminders s' = sent_reminders s
    ∧ heap s' = heap s ++ extra
    ∧ out s' = out s ++ evs
    ∧ Forall is_unsent evs.
Proof.
  intros Hun.
  assert (∀ s' evs, extends s s' evs → Forall is_unsent evs →
            ∃ s'' evs' extra,
              (inr tt : exn + unit, s') = (inr tt, s'')
              ∧ sent_reminders s'' = sent_reminders s
              ∧ heap s'' = heap s ++ extra
              ∧ out s'' = out s ++ evs'
              ∧ Forall is_unsent evs') as Hquiet.
  { intros s' evs (Hs & Hc & Hh & Ho) F. exists s', evs, [].
    by rewrite app_nil_r. }
  unfold process_task, bind, deref. simpl.
  destruct (skipped (default ∅ (heap s !! task))) eqn:Hlive.
  { apply (Hquiet s []); [apply extends_refl|constructor]. }
  unfold try_except, task_body, bind, deref, lift. simpl.
  destruct (parse_due_date _) as [e|due];
    [apply (Hquiet s []); [apply extends_refl|constructor]|].
  destruct (getitem _ "id") as [e|task_id];
    [apply (Hquiet s []); [apply extends_refl|constructor]|].
  destruct (getitem _ "auth_users_id") as [e|user_id];
    [apply (Hquiet s []); [apply extends_refl|constructor]|].
  destruct (datetime_sub due now) as [e|td];
    [apply (Hquiet s []); [apply extends_refl|constructor]|].
  destruct (_get_user_email_frame user_id s)
    as (user_data & s1 & evs1 & E1 & X1 & F1).
  rewrite E1.
  assert (Forall is_unsent (EvResolve user_id :: evs1)) as F.
  { pose proof (_get_user_email_unsent user_id s) as Hnew.
    rewrite E1 in Hnew. simpl in Hnew.
    destruct X1 as (_ & _ & _ & Ho1).
    by rewrite (new_events_app _ _ _ Ho1) in Hnew. }
  destruct (bool_decide (user_data = ∅)); [by apply (Hquiet s1 _ X1)|].
  destruct (truthy (dict_get user_data "email")); simpl;
    [|by apply (Hquiet s1 _ X1)].
  destruct (select_branch _ _ _) as [w|]; [|by apply (Hquiet s1 _ X1)].
  destruct (getitem _ "title") as [e|title];
    [destruct w; by apply (Hquiet s1 _ X1)|].
  destruct X1 as (Hs1 & Hc1 & Hh1 & Ho1).
  destruct w; simpl;
    match goal with
    | |- context [remind _ ?k ?rc ?arg ?st] =>
        destruct (remind_unconfigured k rc arg st Hun)
          as (s' & E & (Hs & Hc & Hh & Ho))
    end; rewrite E; simpl in *.
  - exists s', ((EvResolve user_id :: evs1) ++ [EvRemind (reminder_key task_id PreDue) (dict_get user_data "email") (default ∅ (heap s1 !! task)) false]), [].
    split; [done|]. split; [by rewrite Hs|].
    split; [by rewrite Hh, Hh1, app_nil_r|].
    split; [by rewrite Ho, Ho1, <- app_assoc|].
    apply Forall_app. split; [done|]. by repeat constructor.
  - exists s', ((EvResolve user_id :: evs1) ++ [EvRemind (reminder_key task_id DueNow) (dict_get user_data "email") (default ∅ (heap s1 !! task)) false]), [].
    split; [done|]. split; [by rewrite Hs|].
    split; [by rewrite Hh, Hh1, app_nil_r|].
    split; [by rewrite Ho, Ho1, <- app_assoc|].
    apply Forall_app. split; [done|]. by repeat constructor.
  - eexists s', ((EvResolve user_id :: evs1) ++ [_]), _.
    split; [done|]. split; [by rewrite Hs|].
    split; [by rewrite Hh, alter_fresh, Hh1|].
    split; [by rewrite Ho, Ho1, <- app_assoc|].
    apply Forall_app. split; [done|]. by repeat constructor.
Qed.

Lemma for_each_unconfigured now tasks s :
  configured (sender_email email_service) = false
  ∨ configured (sender_password email_service) = false →
  ∃ s' evs,
    for_each (process_task email_service now) tasks s = (inr tt, s')
    ∧ sent_reminders s' = sent_reminders s
    ∧ out s' = out s ++ evs
    ∧ Forall is_unsent evs.
Proof.
  intros Hun. revert s. induction tasks as [|task tasks IH]; intros s.
  - exists s, []. by rewrite app_nil_r.
  - destruct (process_task_unconfigured now task s Hun)
      as (s1 & evs1 & extra & E1 & Hs1 & _ & Ho1 & F1).
    destruct (IH s1) as (s2 & evs2 & E2 & Hs2 & Ho2 & F2).
    exists s2, (evs1 ++ evs2).
    unfold for_each; fold (@for_each H loc). unfold bind. rewrite E1.
    split; [done|]. split; [by rewrite Hs2|].
    split; [by rewrite Ho2, Ho1, app_assoc|]. by apply Forall_app.
Qed.

(** X8. With a mailer that lacks a credential, as the one made from the default
    settings does, a pass opens no SMTP session and sends no reminder with
    success: every reminder it attempts fails, and the set ends as it was, or
    empty when it held more than 1000 keys. *)
Theorem unconfigured_mailer_sends_nothing s :
  configured (sender_email email_service) = false
  ∨ configured (sender_password email_service) = false →
  (∀ msg, EvSmtp msg ∉ new_events s (check_task_reminders email_service s).2)
  ∧ (∀ key recipient task,
       EvRemind key recipient task true
         ∉ new_events s (check_task_reminders email_service s).2)
  ∧ (sent_reminders (check_task_reminders email_service s).2
     = sent_reminders s
     ∨ ((1000 < size (sent_reminders s))%nat
        ∧ sent_reminders (check_task_reminders email_service s).2 = ∅)).
Proof.
  intros Hun.
  destruct (check_task_reminders_spec email_service s) as (s' & E & Hout).
  rewrite E. simpl.
  destruct Hout as [_ Hs _ _ Ho
                   |rows now s0 s1 _ _ Hs0 _ Ho0 _ Hfor _ Hclean].
  { rewrite (new_events_app _ _ _ Ho).
    split; [|split; [|by left]]; intros; intros Hin;
      by apply list_elem_of_singleton in Hin. }
  destruct (for_each_unconfigured now (seq (length (heap s)) (length rows))
              s0 Hun) as (s1' & evs & E1 & Hs1 & Ho1 & F).
  rewrite Hfor in E1. injection E1 as <-.
  rewrite Forall_forall in F.
  assert (∃ tail, out s' = out s ++ EvDb DbQuery "tasks" :: evs ++ tail
                  ∧ (tail = [] ∨ tail = [EvClear])
                  ∧ (sent_reminders s' = sent_reminders s
                     ∨ ((1000 < size (sent_reminders s))%nat
                        ∧ sent_reminders s' = ∅)))
    as (tail & Ho & Htail & Hsent).
  { apply cleanup_spec in Hclean as [(Hsz & Hs & Ho & _)|[_ ->]].
    - exists [EvClear]. rewrite Ho, Ho1, Ho0, <- !app_assoc.
      split; [done|]. split; [by right|]. right. by rewrite <- Hs0, <- Hs1.
    - exists []. rewrite Ho1, Ho0, app_nil_r, <- !app_assoc.
      split; [done|]. split; [by left|]. left. by rewrite Hs1. }
  rewrite (new_events_app _ _ _ Ho).
  assert (∀ e, e ∈ EvDb DbQuery "tasks" :: evs ++ tail →
               e = EvDb DbQuery "tasks" ∨ is_unsent e ∨ e = EvClear) as Hall.
  { intros e Hin. apply elem_of_cons in Hin as [->|Hin]; [by left|].
    apply elem_of_app in Hin as [Hin|Hin]; [right; left; by apply F|].
    destruct Htail as [-> | ->]; [by apply elem_of_nil in Hin|].
    apply list_elem_of_singleton in Hin. by right; right. }
  split; [|split; [|done]].
  - intros msg Hin. by destruct (Hall _ Hin) as [?|[?|?]].
  - intros key recipient task Hin. by destruct (Hall _ Hin) as [?|[?|?]].
Qed.

End More.

Section Store.
Context `{Web}.
Variable email_service : EmailService.

(** ** The store and the notification routes *)

Lemma eq_filters_lookup filters params k :
  eq_filters filters params !! k
  = match filters !! k with
    | Some v => Some (VStr ("eq." +:+ str v))
    | None => params !! k
    end.
Proof.
  unfold eq_filters.
  apply (map_fold_weak_ind
           (λ acc m, acc !! k = match m !! k with
                                | Some v => Some (VStr ("eq." +:+ str v))
                                | None => params !! k
                                end)).
  - by rewrite lookup_empty.
  - intros i x m r Hi IH. rewrite !lookup_insert.
    destruct (decide (i = k)); [done|exact IH].
Qed.

Lemma lookup_sent_int key (x : option Z) (params : dict) k :
  match x with
  | Some n => if n =? 0 then params else <[key := VInt n]> params
  | None => params
  end !! k
  = if bool_decide (k = key) && is_sent_int x then VInt <$> x
    else params !! k.
Proof.
  destruct x as [n|]; simpl; [|by rewrite andb_false_r].
  destruct (n =? 0); simpl; [by rewrite andb_false_r|].
  rewrite andb_true_r, lookup_insert.
  case_decide; case_bool_decide; congruence.
Qed.

Lemma lookup_sent_str key (x : option string) (params : dict) k :
  match x with
  | Some o => if String.eqb o "" then params else <[key := VStr o]> params
  | None => params
  end !! k
  = if bool_decide (k = key) && is_sent_str x then VStr <$> x
    else params !! k.
Proof.
  destruct x as [o|]; simpl; [|by rewrite andb_false_r].
  destruct (String.eqb o ""); simpl; [by rewrite andb_false_r|].
  rewrite andb_true_r, lookup_insert.
  case_decide; case_bool_decide; congruence.
Qed.


(** X9. The parameters [query] sends. A truthy [offset], [limit] and [order_by]
    are sent as they are; every filter on another column is sent as [eq.]
    followed by the text of its value, a filter named [select] taking the place
    of the select list; a [limit] or [offset] of zero and an empty [order_by]
    are not sent; and nothing else is sent. An empty dict of filters sends what
    no filters send: every row is asked for. *)
Theorem query_params_lookup select filters order_by limit offset :
  (∀ n, offset = Some n → n ≠ 0 →
        query_params select filters order_by limit offset !! "offset"
        = Some (VInt n))
  ∧ (∀ n, limit = Some n → n ≠ 0 →
          query_params select filters order_by limit offset !! "limit"
          = Some (VInt n))
  ∧ (∀ o, order_by = Some o → o ≠ "" →
          query_params select filters order_by limit offset !! "order"
          = Some (VStr o))
  ∧ (∀ f k v, filters = Some f → f !! k = Some v →
              k ≠ "order" → k ≠ "limit" → k ≠ "offset" →
              query_params select filters order_by limit offset !! k
              = Some (VStr ("eq." +:+ str v)))
  ∧ (∀ k, (filters = None ∨ ∃ f, filters = Some f ∧ f !! k = None) →
          query_params select filters order_by limit offset !! k
          = if bool_decide (k = "offset") then
              match offset with
              | Some n => if n =? 0 then None else Some (VInt n)
              | None => None
              end
            else if bool_decide (k = "limit") then
              match limit with
              | Some n => if n =? 0 then None else Some (VInt n)
              | None => None
              end
            else if bool_decide (k = "order") then
              match order_by with
              | Some o => if String.eqb o "" then None else Some (VStr o)
              | None => None
              end
            else if bool_decide (k = "select") then Some (VStr select)
            else None)
  ∧ query_params select (Some ∅) order_by limit offset
    = query_params select None order_by limit offset.
Proof.
  assert (∀ k,
            match filters with
            | Some f => if bool_decide (f = ∅)
                        then ({[ "select" := VStr select ]} : dict)
                        else eq_filters f {[ "select" := VStr select ]}
            | None => {[ "select" := VStr select ]}
            end !! k
            = match filters ≫= (.!! k) with
              | Some v => Some (VStr ("eq." +:+ str v))
              | None => if bool_decide (k = "select")
                        then Some (VStr select) else None
              end) as Hbase.
  { intros k.
    assert (({[ "select" := VStr select ]} : dict) !! k
            = if bool_decide (k = "select") then Some (VStr select) else None)
      as Hsel.
    { rewrite lookup_singleton. case_bool_decide; case_decide; congruence. }
    destruct filters as [f|]; simpl; [|exact Hsel].
    destruct (bool_decide (f = ∅)) eqn:Hf.
    - apply bool_decide_eq_true_1 in Hf. subst f.
      by rewrite lookup_empty.
    - rewrite eq_filters_lookup. by destruct (f !! k). }
  assert (∀ k, query_params select filters order_by limit offset !! k
               = if bool_decide (k = "offset") && is_sent_int offset
                 then VInt <$> offset
                 else if bool_decide (k = "limit") && is_sent_int limit
                 then VInt <$> limit
                 else if bool_decide (k = "order") && is_sent_str order_by
                 then VStr <$> order_by
                 else match filters ≫= (.!! k) with
                      | Some v => Some (VStr ("eq." +:+ str v))
                      | None => if bool_decide (k = "select")
                                then Some (VStr select) else None
                      end) as Hall.
  { intros k. unfold query_params.
    rewrite (lookup_sent_int "offset"), (lookup_sent_int "limit"),
      (lookup_sent_str "order").
    by rewrite (Hbase k). }
  repeat split.
  - intros n -> Hn. rewrite Hall. simpl. apply Z.eqb_neq in Hn. by rewrite Hn.
  - intros n -> Hn. rewrite Hall. simpl. apply Z.eqb_neq in Hn. by rewrite Hn.
  - intros o -> Ho. rewrite Hall. simpl. apply String.eqb_neq in Ho.
    by rewrite Ho.
  - intros f k v -> Hk Ho Hl Hoff. rewrite Hall. simpl. rewrite Hk.
    by rewrite !bool_decide_eq_false_2 by done.
  - intros k Hnone. rewrite Hall.
    assert (filters ≫= (.!! k) = None) as ->
      by (destruct Hnone as [->|(f & -> & Hk)]; [done|exact Hk]).
    destruct (bool_decide (k = "offset")) eqn:E1.
    { apply bool_decide_eq_true_1 in E1. subst k.
      destruct offset as [n|]; [|done]. simpl. by destruct (n =? 0). }
    destruct (bool_decide (k = "limit")) eqn:E2.
    { apply bool_decide_eq_true_1 in E2. subst k.
      destruct limit as [n|]; [|done]. simpl. by destruct (n =? 0). }
    destruct (bool_decide (k = "order")) eqn:E3; [|done].
    apply bool_decide_eq_true_1 in E3. subst k.
    destruct order_by as [o|]; [|done]. simpl. by destruct (String.eqb o "").
Qed.

(** *** [DatabaseService.query] *)

Lemma query_spec table select filters order_by limit offset s :
  query table select filters order_by limit offset s
  = (match (rest_send {| verb := GET; table := table;
                         call_params :=
                           query_params select filters order_by limit offset |}
              (ext s)).1 with
     | inl e => inl e
     | inr response =>
         match raise_for_status response with
         | Some e => inl e
         | None => rest_rows response
         end
     end,
     {| sent_reminders := sent_reminders s;
        reminder_sent_count := reminder_sent_count s;
        heap := heap s;
        out := out s ++ [EvDb DbQuery table];
        ext := (rest_send {| verb := GET; table := table;
                             call_params :=
                               query_params select filters order_by limit
                                 offset |}
                  (ext s)).2 |}).
Proof.
  unfold query, try_except, bind, emit, call, lift, raise. simpl.
  destruct (rest_send _ _) as [[e|response] w]; simpl; [done|].
  destruct (raise_for_status response) as [e|]; simpl; [done|].
  by destruct (rest_rows response) as [e|rows].
Qed.

(** X10. [query] makes one request, a GET for the table with the parameters
    above, and records it. It returns rows exactly when the request went
    through, the status was no error and the body decoded; otherwise the
    exception of the first of these three that failed reaches the caller as it
    is: the handler logs and re-raises, it neither swallows nor replaces it.
    The scheduler's set, counter and objects are untouched. *)
Theorem query_reraises_or_returns table select filters order_by limit offset s :
  let sent := rest_send {| verb := GET; table := table;
                           call_params :=
                             query_params select filters order_by limit
                               offset |} (ext s) in
  let r := query table select filters order_by limit offset s in
  (∀ rows, r.1 = inr rows
           ↔ ∃ response, sent.1 = inr response
                         ∧ raise_for_status response = None
                         ∧ rest_rows response = inr rows)
  ∧ (∀ e, r.1 = inl e
          ↔ sent.1 = inl e
            ∨ ∃ response,
                sent.1 = inr response
                ∧ (raise_for_status response = Some e
                   ∨ (raise_for_status response = None
                      ∧ rest_rows response = inl e)))
  ∧ new_events s r.2 = [EvDb DbQuery table]
  ∧ ext r.2 = sent.2
  ∧ sent_reminders r.2 = sent_reminders s
  ∧ reminder_sent_count r.2 = reminder_sent_count s
  ∧ heap r.2 = heap s.
Proof.
  intros sent r. subst r. rewrite query_spec. fold sent. simpl.
  split; [|split; [|split]].
  - intros rows. destruct (sent.1) as [e|response]; simpl.
    { split; [done|]. by intros (? & ? & _). }
    destruct (raise_for_status response) as [e|] eqn:E.
    { split; [done|]. intros (? & [= <-] & ? & _). congruence. }
    split.
    + intros Hr. by exists response.
    + by intros (? & [= <-] & _ & ?).
  - intros e. destruct (sent.1) as [e'|response]; simpl.
    { split; [intros [= ->]; by left|]. intros [[= ->]|(? & ? & _)]; done. }
    destruct (raise_for_status response) as [e'|] eqn:E.
    { split.
      - intros [= ->]. right. exists response. split; [done|]. by left.
      - intros [?|(? & [= <-] & [?|[? _]])]; congruence. }
    split.
    + intros Hr. right. exists response. split; [done|]. by right.
    + intros [?|(? & [= <-] & [?|[_ ?]])]; congruence.
  - unfold new_events. simpl. by rewrite drop_app_length.
  - done.
Qed.

(** *** The routes of [routes/notifications.py] *)

(** What the mail adapter does, case by case. *)
Lemma send_task_reminder_cases recipient task s :
  send_task_reminder email_service recipient task s = (inr false, s)
  ∨ ∃ msg failure w,
      configured (sender_email email_service) = true
      ∧ configured (sender_password email_service) = true
      ∧ build_message (default "" (sender_email email_service)) recipient
          (default ∅ (heap s !! task)) = inr msg
      ∧ smtp_deliver (smtp_host email_service) (smtp_port email_service)
          (default "" (sender_email email_service))
          (default "" (sender_password email_service)) msg (ext s)
        = (failure, w)
      ∧ send_task_reminder email_service recipient task s
        = (inr (match failure with None => true | Some _ => false end),
           {| sent_reminders := sent_reminders s;
              reminder_sent_count := reminder_sent_count s;
              heap := heap s;
              out := out s ++ [EvSmtp msg];
              ext := w |}).
Proof.
  unfold send_task_reminder.
  destruct (configured (sender_email email_service)); simpl; [|by left].
  destruct (configured (sender_password email_service)); simpl; [|by left].
  unfold try_except, bind, deref, lift, emit, call, ret, raise. simpl.
  destruct (build_message _ _ _) as [e|msg] eqn:Hm; simpl; [by left|].
  destruct (smtp_deliver _ _ _ _ _ _) as [failure w] eqn:Hd.
  right. exists msg, failure, w. do 4 (split; [done|]).
  by destruct failure.
Qed.

(** The request of the route to the store: the task with the given id
    that belongs to the given user. *)
Lemma route_query_params task_id user_id :
  query_params "*"
    (Some {[ "id" := VStr task_id; "auth_users_id" := user_id ]})
    None None None
  = {[ "select" := VStr "*"; "id" := VStr ("eq." +:+ task_id);
       "auth_users_id" := VStr ("eq." +:+ str user_id) ]}.
Proof.
  unfold query_params.
  rewrite bool_decide_eq_false_2.
  2: { intros E. apply (f_equal (.!! "id")) in E.
       by rewrite lookup_insert_eq, lookup_empty in E. }
  apply map_eq. intros k. rewrite eq_filters_lookup.
  rewrite !lookup_insert, !lookup_singleton.
  repeat case_decide; simplify_eq; try done.
Qed.

Ltac route_run :=
  unfold Notifications.send_task_reminder, try_except, bind, lift;
  destruct (getitem _ "user_id") as [e|user_id] eqn:Hid; cbn beta iota;
  [|destruct (getitem _ "email") as [e|user_email] eqn:Hemail; cbn beta iota;
    [|rewrite query_spec, route_query_params;
      destruct (rest_send _ _) as [[e|response] w] eqn:Hsend; cbn beta iota delta [fst snd];
      [|destruct (raise_for_status response) as [e|] eqn:Hstatus; cbn beta iota;
        [|destruct (rest_rows response) as [e|[|row rest]] eqn:Hrows;
          cbn beta iota;
          [| |unfold alloc; cbn beta iota;
              match goal with
              | |- context [send_task_reminder _ ?r ?t ?s1] =>
                  destruct (send_task_reminder_cases r t s1)
                    as [Hrun|(msg & failure & w' & Hc1 & Hc2 & Hm & Hd & Hrun)];
                  rewrite Hrun; cbn beta iota;
                  [|destruct failure as [e|]; cbn beta iota]
              end]]]]].

Lemma getitem_inr_lookup (d : dict) k v : getitem d k = inr v → d !! k = Some v.
Proof. unfold getitem. by destruct (d !! k); intros [= ->]. Qed.

Lemma getitem_inl_lookup (d : dict) k e :
  getitem d k = inl e → d !! k = None ∧ e = KeyError k.
Proof. unfold getitem. by destruct (d !! k); intros [= <-]. Qed.

Lemma build_message_to sender recipient d msg :
  build_message sender recipient d = inr msg → msg_to msg = recipient.
Proof.
  unfold build_message. intros Hm.
  repeat match type of Hm with
         | match ?x with _ => _ end = _ => destruct x; try discriminate
         end.
  by injection Hm as <-.
Qed.

(** X11. The route [send-reminder] answers or raises an [HTTPException], and
    nothing else escapes it. It raises 404 only with the detail [Task not
    found], and otherwise 500. It does not touch the scheduler's set or
    counter, so a reminder sent by hand neither uses nor updates the record of
    sent reminders. It asks the store at most once, for the table [tasks], and
    hands at most one message to the mail server, after the answer of the
    store, addressed to the caller's own address. *)
Theorem reminder_route_effects task_id current_user s :
  let r := Notifications.send_task_reminder email_service task_id
             current_user s in
  (∃ outcome, r.1 = inr outcome)
  ∧ sent_reminders r.2 = sent_reminders s
  ∧ reminder_sent_count r.2 = reminder_sent_count s
  ∧ (new_events s r.2 = []
     ∨ new_events s r.2 = [EvDb DbQuery "tasks"]
     ∨ ∃ msg, new_events s r.2 = [EvDb DbQuery "tasks"; EvSmtp msg]
              ∧ current_user !! "email" = Some (msg_to msg))
  ∧ (∀ status detail,
       r.1 = inr (inl (HTTPException status detail)) →
       (status = 404 ∧ detail = "Task not found") ∨ status = 500).
Proof.
  intros r. subst r.
  route_run; cbn [fst snd ret sent_reminders reminder_sent_count out];
    (split; [by eexists|]); (split; [done|]); (split; [done|]);
    (split; [|intros ? ? [= <- <-]; auto]);
    first [ left; solve [apply new_events_refl]
          | right; left; solve [by apply new_events_app]
          | right; right; exists msg; split;
            [apply new_events_app; simpl; by rewrite <- app_assoc
            |rewrite (build_message_to _ _ _ _ Hm);
             by apply getitem_inr_lookup] ].
Qed.

(** X12. The route answers with success only when all of this happened: the
    caller has a user id and an address; the store was asked for the task with
    the requested id that belongs to the caller, the request went through
    without an error status, and the answer had at least one row; both
    credentials of the mailer are configured; the message built from the first
    row, to the caller's address, was handed to the mail server, which accepted
    it. The answer names the caller's address. *)
Theorem reminder_route_success task_id current_user s body :
  (Notifications.send_task_reminder email_service task_id current_user s).1
  = inr (inr body) →
  ∃ user_id user_email response row rest msg w,
    current_user !! "user_id" = Some user_id
    ∧ current_user !! "email" = Some user_email
    ∧ body = {[ "message" := VStr "Reminder sent successfully";
                "email" := user_email ]}
    ∧ rest_send (route_request task_id user_id) (ext s) = (inr response, w)
    ∧ raise_for_status response = None
    ∧ rest_rows response = inr (row :: rest)
    ∧ configured (sender_email email_service) = true
    ∧ configured (sender_password email_service) = true
    ∧ build_message (default "" (sender_email email_service)) user_email row
      = inr msg
    ∧ smtp_deliver (smtp_host email_service) (smtp_port email_service)
        (default "" (sender_email email_service))
        (default "" (sender_password email_service)) msg w
      = (None,
         ext (Notifications.send_task_reminder email_service task_id
                current_user s).2)
    ∧ new_events s
        (Notifications.send_task_reminder email_service task_id
           current_user s).2
      = [EvDb DbQuery "tasks"; EvSmtp msg].
Proof.
  unfold route_request.
  route_run; cbn [fst snd ret heap out ext]; intros Hbody; try discriminate Hbody.
  injection Hbody as <-.
  cbn [heap ext] in Hm, Hd. rewrite lookup_fresh in Hm.
  change (default ∅ (Some row)) with row in Hm.
  exists user_id, user_email, response, row, rest, msg, w.
  split; [by apply getitem_inr_lookup|].
  split; [by apply getitem_inr_lookup|].
  do 8 (split; [done|]).
  apply new_events_app. simpl. by rewrite <- app_assoc.
Qed.

(** X13. The route raises 404 exactly when the caller has a user id and an
    address and the store, asked for the task with the requested id that
    belongs to the caller, answers without an error and with no row: a task of
    another user is not found, like a task that does not exist. Nothing is
    handed to the mail server then. *)
Theorem reminder_route_not_found task_id current_user s :
  let r := Notifications.send_task_reminder email_service task_id
             current_user s in
  (r.1 = inr (inl (HTTPException 404 "Task not found"))
   ↔ ∃ user_id user_email response w,
       current_user !! "user_id" = Some user_id
       ∧ current_user !! "email" = Some user_email
       ∧ rest_send (route_request task_id user_id) (ext s) = (inr response, w)
       ∧ raise_for_status response = None
       ∧ rest_rows response = inr [])
  ∧ (r.1 = inr (inl (HTTPException 404 "Task not found")) →
     new_events s r.2 = [EvDb DbQuery "tasks"] ∧ heap r.2 = heap s).
Proof.
  intros r. subst r. unfold route_request.
  route_run; cbn [fst snd ret heap];
    (split; [split|]);
    try (intros Hr; discriminate Hr);
    try (intros (user_id' & user_email' & response' & w0 & Hk1 & Hk2
                 & Hs & Hst & Hr);
         apply getitem_inr_lookup in Hid || apply getitem_inl_lookup in Hid;
         try (apply getitem_inr_lookup in Hemail
              || apply getitem_inl_lookup in Hemail);
         solve [ destruct Hid; congruence
               | destruct Hemail; congruence
               | simplify_eq; congruence ]).
  - intros _. exists user_id, user_email, response, w.
    split; [by apply getitem_inr_lookup|].
    split; [by apply getitem_inr_lookup|]. done.
  - intros _. split; [|done]. by apply new_events_app.
Qed.

Lemma build_message_subject sender recipient d msg :
  build_message sender recipient d = inr msg →
  ∃ title, d !! "title" = Some title
           ∧ subject msg = "⏰ Task Reminder: " +:+ str title.
Proof.
  unfold build_message. intros Hm.
  destruct (getitem d "title") as [e|title] eqn:Ht; [done|].
  exists title. split; [by apply getitem_inr_lookup|].
  repeat match type of Hm with
         | match ?x with _ => _ end = _ => destruct x; try discriminate
         end.
  by injection Hm as <-.
Qed.

(** X14. The route [test-email] never asks the store and never touches the
    scheduler's set or counter. It answers or raises 500, nothing else. It
    hands at most one message to the mail server, addressed to the caller's own
    address and with the subject of the built-in test task. A success answer
    names that address and is given only after the message was handed over.
    When the adapter reports failure, the 500 that reaches the client does not
    carry the route's own detail but the text of the exception raised with that
    detail, because the handler for every exception takes that one too. *)
Theorem test_email_outcomes current_user s :
  let r := Notifications.test_email email_service current_user s in
  (∃ outcome, r.1 = inr outcome)
  ∧ sent_reminders r.2 = sent_reminders s
  ∧ reminder_sent_count r.2 = reminder_sent_count s
  ∧ (new_events s r.2 = []
     ∨ ∃ msg, new_events s r.2 = [EvSmtp msg]
              ∧ current_user !! "email" = Some (msg_to msg)
              ∧ subject msg = "⏰ Task Reminder: Test Email Notification")
  ∧ (∀ status detail,
       r.1 = inr (inl (HTTPException status detail)) →
       status = 500
       ∧ ((current_user !! "email" = None
           ∧ detail = exception_text (KeyError "email"))
          ∨ (is_Some (current_user !! "email")
             ∧ detail
               = http_exception_text 500
                   "Failed to send test email - check SMTP credentials")))
  ∧ (∀ body,
       r.1 = inr (inr body) →
       ∃ user_email msg,
         current_user !! "email" = Some user_email
         ∧ body = {[ "message" :=
                       VStr ("Test email sent to " +:+ str user_email) ]}
         ∧ new_events s r.2 = [EvSmtp msg]).
Proof.
  intros r. subst r.
  unfold Notifications.test_email, try_except, bind, lift.
  destruct (getitem _ "email") as [e|user_email] eqn:Hemail; cbn beta iota.
  { apply getitem_inl_lookup in Hemail as [Hnone ->].
    cbn [fst snd ret]. split; [by eexists|]. do 2 (split; [done|]).
    split; [left; apply new_events_refl|].
    split; [|intros body Hb; discriminate Hb].
    intros ? ? [= <- <-]. split; [done|]. by left. }
  apply getitem_inr_lookup in Hemail.
  unfold alloc; cbn beta iota.
  match goal with
  | |- context [send_task_reminder _ ?r ?t ?s1] =>
      destruct (send_task_reminder_cases r t s1)
        as [Hrun|(msg & failure & w' & Hc1 & Hc2 & Hm & Hd & Hrun)];
      rewrite Hrun; cbn beta iota
  end.
  { cbn [fst snd ret sent_reminders reminder_sent_count out].
    split; [by eexists|]. do 2 (split; [done|]).
    split; [left; by apply new_events_app; rewrite app_nil_r|].
    split; [|intros body Hb; discriminate Hb].
    intros ? ? [= <- <-]. split; [done|]. right. by split; [eexists|]. }
  cbn [heap] in Hm. rewrite lookup_fresh in Hm.
  change (default ∅ (Some Notifications.test_task))
    with Notifications.test_task in Hm.
  assert (new_events s
            {| sent_reminders := sent_reminders s;
               reminder_sent_count := reminder_sent_count s;
               heap := heap s ++ [Notifications.test_task];
               out := out s ++ [EvSmtp msg]; ext := w' |} = [EvSmtp msg]
          ∧ current_user !! "email" = Some (msg_to msg)
          ∧ subject msg = "⏰ Task Reminder: Test Email Notification")
    as Hev.
  { split; [by apply new_events_app|].
    split; [by rewrite (build_message_to _ _ _ _ Hm)|].
    destruct (build_message_subject _ _ _ _ Hm) as (title & Ht & ->).
    assert (Notifications.test_task !! "title"
            = Some (VStr "Test Email Notification")) as Ht'
      by (vm_compute; reflexivity).
    rewrite Ht' in Ht. by injection Ht as <-. }
  destruct failure as [e|]; cbn beta iota;
    cbn [fst snd ret sent_reminders reminder_sent_count out heap ext];
    (split; [by eexists|]); (do 2 (split; [done|])); (split; [by right; exists msg|]).
  - split; [|intros body Hb; discriminate Hb].
    intros ? ? [= <- <-]. split; [done|]. right. by split; [eexists|].
  - split; [intros ? ? Hb; discriminate Hb|].
    intros body [= <-]. exists user_email, msg. by destruct Hev.
Qed.

End Store.

(** * The claims at concrete tasks *)

Import Scenario.

(** C1 at a task in its first window. With its key in the set no reminder
    is sent. From a set at the ceiling, the reminder of the first pass fills
    the set over the ceiling, the set is cleared, and the second pass sends
    again: the clear is between the two reminders. *)
Lemma reminder_sent_at_most_once_witness :
  let s := scheduler {["t1_1h"]} [] (Sim.at_time "11:00:00" [report]) in
  let s' := scheduler full_set [] (Sim.at_time "11:00:00" [report]) in
  ("t1_1h" ∈ sent_reminders s
   ∧ EvRemind "t1_1h" ann report true ∉ new_events s (pass s))
  ∧ (new_events s' (run_passes Sim.mailer 2 s').2 !! 5%nat
       = Some (EvRemind "t1_1h" ann report true)
     ∧ new_events s' (run_passes Sim.mailer 2 s').2 !! 12%nat
       = Some (EvRemind "t1_1h" ann report true)
     ∧ ∃ m, (5 < m < 12)%nat
            ∧ new_events s' (run_passes Sim.mailer 2 s').2 !! m
              = Some EvClear).
Proof.
  intros s s'.
  pose proof (reminder_sent_at_most_once (H:=Sim.platform) Sim.mailer)
    as [Hpass Hlife].
  split.
  - assert ("t1_1h" ∈ sent_reminders s) as Hin
      by (apply elem_of_singleton; reflexivity).
    split; [exact Hin|]. apply Hpass. exact Hin.
  - assert (new_events s' (run_passes Sim.mailer 2 s').2 !! 5%nat
            = Some (EvRemind "t1_1h" ann report true)) as H5
      by (vm_compute; reflexivity).
    assert (new_events s' (run_passes Sim.mailer 2 s').2 !! 12%nat
            = Some (EvRemind "t1_1h" ann report true)) as H12
      by (vm_compute; reflexivity).
    split; [exact H5|]. split; [exact H12|].
    apply (Hlife 2%nat s' 5%nat 12%nat "t1_1h" ann report ann report true);
      [lia|exact H5|exact H12].
Defined.

(** C3 at a completed task that is due in an hour: its iteration does
    nothing, and its pass only queries. The reminder of a pass over the same
    task when it is not completed is about a live task. *)
Lemma no_reminder_when_completed_witness :
  let s := scheduler ∅ [done_report] (Sim.at_time "11:00:00" []) in
  let s1 := scheduler ∅ [] (Sim.at_time "11:00:00" [report]) in
  dict_get done_report "status" = VStr "completed"
  ∧ skipped done_report = true
  ∧ process_task Sim.mailer eleven 0%nat s = (inr tt, s)
  ∧ new_events s1 (pass s1) !! 5%nat = Some (EvRemind "t1_1h" ann report true)
  ∧ skipped report = false.
Proof.
  intros s s1.
  pose proof (no_reminder_when_completed (H:=Sim.platform) Sim.mailer)
    as (Hstatus & _ & Hskip & Hlive).
  assert (dict_get done_report "status" = VStr "completed") as Hst
    by (vm_compute; reflexivity).
  assert (new_events s1 (pass s1) !! 5%nat
          = Some (EvRemind "t1_1h" ann report true)) as H5
    by (vm_compute; reflexivity).
  split; [exact Hst|]. split; [exact (Hstatus _ Hst)|].
  split; [apply Hskip; exact (Hstatus _ Hst)|].
  split; [exact H5|].
  exact (Hlive s1 _ _ _ _ (list_elem_of_lookup_2 _ _ _ H5)).
Defined.

(** C4 at a task in its first window: with the mail server up the key
    joins the set and the counter is one; with the server down the set and
    the counter stay. *)
Lemma send_result_decides_key_witness :
  let up := scheduler ∅ [report] (Sim.at_time "11:00:00" []) in
  let down := scheduler ∅ [report] (mail_down (Sim.at_time "11:00:00" [])) in
  (new_events up (visit up) !! 4%nat = Some (EvRemind "t1_1h" ann report true)
   ∧ sent_reminders (visit up) = {["t1_1h"]} ∪ ∅
   ∧ reminder_sent_count (visit up) = 1%nat)
  ∧ (new_events down (visit down) !! 4%nat
       = Some (EvRemind "t1_1h" ann report false)
     ∧ sent_reminders (visit down) = ∅
     ∧ ("t1_1h" ∉ sent_reminders (visit down))
     ∧ reminder_sent_count (visit down) = 0%nat).
Proof.
  intros up down.
  pose proof (send_result_decides_key (H:=Sim.platform) Sim.mailer)
    as [_ Htask].
  split.
  - assert (new_events up (visit up) !! 4%nat
            = Some (EvRemind "t1_1h" ann report true)) as H4
      by (vm_compute; reflexivity).
    split; [exact H4|].
    destruct (Htask eleven 0%nat up _ _ _ _ (list_elem_of_lookup_2 _ _ _ H4))
      as (_ & Hyes & _).
    exact (Hyes eq_refl).
  - assert (new_events down (visit down) !! 4%nat
            = Some (EvRemind "t1_1h" ann report false)) as H3
      by (vm_compute; reflexivity).
    split; [exact H3|].
    destruct (Htask eleven 0%nat down _ _ _ _ (list_elem_of_lookup_2 _ _ _ H3))
      as (_ & _ & Hno).
    exact (Hno eq_refl).
Defined.

(** C5 at a pass over three tasks of which the second has the due date
    'next tuesday': the pass returns normally, the second task is passed
    over, and the third gets its reminder as the first did. *)
Lemma task_failure_is_contained_witness :
  let s := scheduler ∅ [] (Sim.at_time "11:00:00" [report; broken; rent]) in
  let s2 := scheduler ∅ [broken] (Sim.at_time "11:00:00" []) in
  (check_task_reminders Sim.mailer s).1 = inr tt
  ∧ new_events s (pass s) !! 5%nat = Some (EvRemind "t1_1h" ann report true)
  ∧ new_events s (pass s) !! 10%nat
    = Some (EvRemind "t3_overdue" ann
              (<["title" := VStr "OVERDUE: Pay rent"]> rent) true)
  ∧ length (new_events s (pass s)) = 11%nat
  ∧ skipped broken = false
  ∧ parse_due_date (H:=Sim.platform) broken = inl ValueError
  ∧ task_body Sim.mailer eleven 0%nat s2 = (inl ValueError, s2)
  ∧ process_task Sim.mailer eleven 0%nat s2 = (inr tt, s2).
Proof.
  intros s s2.
  pose proof (task_failure_is_contained (H:=Sim.platform) Sim.mailer)
    as (Hpass & _ & _ & _ & Hparse & Hbad).
  assert (skipped broken = false) as Hlive by (vm_compute; reflexivity).
  assert (parse_due_date (H:=Sim.platform) broken = inl ValueError) as Hp.
  { apply (Hbad broken "next tuesday" ValueError); vm_compute; reflexivity. }
  split; [apply Hpass|].
  split; [vm_compute; reflexivity|].
  split; [vm_compute; reflexivity|].
  split; [vm_compute; reflexivity|].
  split; [exact Hlive|]. split; [exact Hp|].
  exact (Hparse eleven 0%nat s2 ValueError Hlive Hp).
Defined.

(** C6 at the ceiling. A set of 1000 keys is left alone and a set of 1001
    keys is emptied. From a set of 1000 keys, a pass that sends one reminder
    ends with a clear and an empty set, and the same task, visited again,
    gets its reminder again. *)
Lemma cleanup_bounds_the_set_witness :
  let s := scheduler full_set [] (Sim.at_time "11:00:00" [report]) in
  let over := scheduler ({["t1_1h"]} ∪ full_set) [] (Sim.at_time "11:00:00" []) in
  size full_set = 1000%nat
  ∧ _cleanup_old_reminders s = (inr tt, s)
  ∧ size (sent_reminders over) = 1001%nat
  ∧ sent_reminders (_cleanup_old_reminders over).2 = ∅
  ∧ new_events s (pass s) !! 5%nat = Some (EvRemind "t1_1h" ann report true)
  ∧ new_events s (pass s) !! 6%nat = Some EvClear
  ∧ sent_reminders (pass s) = ∅
  ∧ (size (sent_reminders (pass s)) ≤ 1000)%nat
  ∧ ∃ success,
      EvRemind "t1_1h" ann report success
      ∈ new_events (pass s) (visit (pass s)).
Proof.
  intros s over.
  pose proof (cleanup_bounds_the_set (H:=Sim.platform) Sim.mailer)
    as (Hclear & Hkeep & Hpass & Hempty & Hagain).
  assert (size full_set = 1000%nat) as Hfull by (vm_compute; reflexivity).
  assert (size (sent_reminders over) = 1001%nat) as Hover
    by (vm_compute; reflexivity).
  assert (new_events s (pass s) !! 6%nat = Some EvClear) as H6
    by (vm_compute; reflexivity).
  split; [exact Hfull|].
  split.
  { apply Hkeep. change (size full_set ≤ 1000)%nat. rewrite Hfull. lia. }
  split; [exact Hover|].
  split; [apply Hclear; rewrite Hover; lia|].
  split; [vm_compute; reflexivity|].
  split; [exact H6|].
  split; [exact (Hempty s (list_elem_of_lookup_2 _ _ _ H6))|].
  split.
  { refine (proj2 (Hpass s [report] _ _)); [vm_compute; reflexivity|discriminate]. }
  destruct (_get_user_email_frame (VStr "u1") (pass s))
    as (user_data & s1 & evs & E & _).
  assert (match (_get_user_email (VStr "u1") (pass s)).1 with
          | inr d => dict_get d "email"
          | inl _ => VNone
          end = ann) as Hann by (vm_compute; reflexivity).
  rewrite E in Hann. simpl in Hann. rewrite <- Hann.
  apply (Hagain eleven 0%nat (pass s)
           {| wall := wall eleven + 3600 * 1000000; tzinfo := None |}
           (VStr "t1") (VStr "u1") user_data s1 PreDue).
  - vm_compute; reflexivity.
  - vm_compute; reflexivity.
  - vm_compute; reflexivity.
  - vm_compute; reflexivity.
  - exists (VStr "Write report"). vm_compute; reflexivity.
  - reflexivity.
  - vm_compute; reflexivity.
  - intros Hin. apply (bool_decide_eq_true_2 _) in Hin.
    vm_compute in Hin. discriminate Hin.
  - exact E.
  - rewrite Hann. reflexivity.
Defined.

(** C7 at a task due an hour ago: the mail adapter gets a dict with the
    title 'OVERDUE: Pay rent', allocated after the task, and the task at
    location 0 still has its title. *)
Lemma overdue_reminder_uses_a_copy_witness :
  let s := scheduler ∅ [rent] (Sim.at_time "11:00:00" []) in
  new_events s (visit s) !! 4%nat
  = Some (EvRemind "t3_overdue" ann
            (<["title" := VStr "OVERDUE: Pay rent"]> rent) true)
  ∧ heap s !! 0%nat = Some rent
  ∧ heap (visit s) !! 0%nat = Some rent
  ∧ heap (visit s) !! 1%nat = Some (<["title" := VStr "OVERDUE: Pay rent"]> rent)
  ∧ ∃ due td task_id w,
      parse_due_date (H:=Sim.platform) rent = inr due
      ∧ datetime_sub due eleven = inr td
      ∧ in_window w (hours_of td) = true
      ∧ getitem rent "id" = inr task_id
      ∧ "t3_overdue" = reminder_key task_id w.
Proof.
  intros s.
  pose proof (overdue_reminder_uses_a_copy (H:=Sim.platform) Sim.mailer)
    as (Hcopy & Hkeep & _).
  assert (new_events s (visit s) !! 4%nat
          = Some (EvRemind "t3_overdue" ann
                    (<["title" := VStr "OVERDUE: Pay rent"]> rent) true))
    as H4 by (vm_compute; reflexivity).
  assert (heap s !! 0%nat = Some rent) as H0 by reflexivity.
  split; [exact H4|]. split; [exact H0|].
  split; [exact (Hkeep eleven 0%nat s 0%nat rent H0)|].
  split; [vm_compute; reflexivity|].
  destruct (Hcopy eleven 0%nat s _ _ _ _ (list_elem_of_lookup_2 _ _ _ H4))
    as (due & td & task_id & w & Hp & Htd & Hw & Hid & Hk & _).
  exists due, td, task_id, w.
  exact (conj Hp (conj Htd (conj Hw (conj Hid Hk)))).
Defined.

(** C8 as the code has it, at a task due in 22 hours and at a task whose
    due date does not parse: the first has its owner resolved and nothing
    else, the second has nothing done for it. *)
Lemma owner_email_resolved_before_window_witness :
  let s := scheduler ∅ [far] (Sim.at_time "11:00:00" []) in
  let s2 := scheduler ∅ [broken] (Sim.at_time "11:00:00" []) in
  (skipped far = false
   ∧ (∀ w, in_window w (hours_of (22 * 3600 * 1000000)) = false)
   ∧ ∃ evs, new_events s (visit s) = EvResolve (VStr "u1") :: evs
            ∧ ∀ u, EvResolve u ∉ evs)
  ∧ new_events s2 (visit s2) = [].
Proof.
  intros s s2.
  pose proof (owner_email_resolved_before_window (H:=Sim.platform) Sim.mailer)
    as (Hresolve & Hnone & _).
  split; [split; [|split]|].
  - vm_compute; reflexivity.
  - intros []; vm_compute; reflexivity.
  - apply (Hresolve eleven 0%nat s
             {| wall := wall eleven + 22 * 3600 * 1000000; tzinfo := None |}
             (VStr "t4") (VStr "u1")); vm_compute; reflexivity.
  - apply (Hnone eleven 0%nat s2). right. exists ValueError.
    vm_compute; reflexivity.
Defined.

(** C8 as the spec has it fails. A task due in 22 hours matches no window,
    and a task in its first window whose key is in the set is not sent
    again: the owner's email is resolved for both, with the two requests to
    the store. *)
Lemma resolution_after_dedup_counterexample :
  let s := scheduler ∅ [far] (Sim.at_time "11:00:00" []) in
  let s2 := scheduler {["t1_1h"]} [report] (Sim.at_time "11:00:00" []) in
  ((∀ w, in_window w (hours_of (22 * 3600 * 1000000)) = false)
   ∧ datetime_sub {| wall := wall eleven + 22 * 3600 * 1000000;
                     tzinfo := None |} eleven
     = inr (22 * 3600 * 1000000)
   ∧ parse_due_date (H:=Sim.platform) far
     = inr {| wall := wall eleven + 22 * 3600 * 1000000; tzinfo := None |}
   ∧ new_events s (visit s)
     = [EvResolve (VStr "u1"); EvHttpGet (GetProfiles "eq.u1");
        EvHttpGet (GetAuthUser "u1")])
  ∧ (reminder_key (VStr "t1") PreDue ∈ sent_reminders s2
     ∧ in_window PreDue (hours_of (3600 * 1000000)) = true
     ∧ new_events s2 (visit s2)
       = [EvResolve (VStr "u1"); EvHttpGet (GetProfiles "eq.u1");
          EvHttpGet (GetAuthUser "u1")]).
Proof.
  intros s s2. split; [split; [|split; [|split]]|split; [|split]].
  - intros []; vm_compute; reflexivity.
  - vm_compute; reflexivity.
  - vm_compute; reflexivity.
  - vm_compute; reflexivity.
  - apply elem_of_singleton. reflexivity.
  - vm_compute; reflexivity.
  - vm_compute; reflexivity.
Qed.

(** C10 at a set of 1001 keys, with the store down and with an empty
    answer: the pass only queries and the 1001 keys stay. *)
Lemma idle_pass_keeps_state_witness :
  let down := scheduler ({["t1_1h"]} ∪ full_set) []
                (store_down (Sim.at_time "11:00:00" [report])) in
  let empty := scheduler ({["t1_1h"]} ∪ full_set) []
                 (Sim.at_time "11:00:00" []) in
  size (sent_reminders down) = 1001%nat
  ∧ (db_query_tasks (ext down)).1 = inl (ExternalError "store")
  ∧ sent_reminders (pass down) = sent_reminders down
  ∧ new_events down (pass down) = [EvDb DbQuery "tasks"]
  ∧ (db_query_tasks (ext empty)).1 = inr []
  ∧ sent_reminders (pass empty) = sent_reminders empty
  ∧ new_events empty (pass empty) = [EvDb DbQuery "tasks"].
Proof.
  intros down empty.
  assert ((db_query_tasks (ext down)).1 = inl (ExternalError "store")) as Hd
    by reflexivity.
  assert ((db_query_tasks (ext empty)).1 = inr []) as He by reflexivity.
  destruct (idle_pass_keeps_state (H:=Sim.platform) Sim.mailer down
              (or_introl (ex_intro _ _ Hd))) as (_ & Hs1 & _ & _ & Ho1).
  destruct (idle_pass_keeps_state (H:=Sim.platform) Sim.mailer empty
              (or_intror He)) as (_ & Hs2 & _ & _ & Ho2).
  split; [vm_compute; reflexivity|].
  repeat (split; [assumption|]). assumption.
Defined.

(** C9 at a configured mailer whose server is up, and at one without a
    password. *)
Lemma send_task_reminder_returns_bool_witness :
  let s := scheduler ∅ [report] (Sim.at_time "11:00:00" []) in
  (send_task_reminder Sim.mailer ann 0%nat s).1 = inr true
  ∧ (send_task_reminder
       {| smtp_host := "smtp.gmail.com"; smtp_port := 587;
          sender_email := Some "reminders@example.org";
          sender_password := Some "" |} ann 0%nat s).1 = inr false.
Proof.
  intros s. split.
  - destruct (send_task_reminder_returns_bool (H:=Sim.platform) Sim.mailer
                ann 0%nat s) as (b & Hb & Hiff).
    rewrite Hb. f_equal. apply Hiff.
    split; [reflexivity|]. split; [reflexivity|].
    eexists. split; vm_compute; reflexivity.
  - destruct (send_task_reminder_returns_bool (H:=Sim.platform)
                {| smtp_host := "smtp.gmail.com"; smtp_port := 587;
                   sender_email := Some "reminders@example.org";
                   sender_password := Some "" |} ann 0%nat s)
      as (b & Hb & Hiff).
    rewrite Hb. f_equal. destruct b; [|reflexivity].
    destruct Hiff as [Hiff _]. destruct (Hiff eq_refl) as (_ & Hpw & _).
    discriminate Hpw.
Defined.

(** * The further properties at concrete tasks *)

Import SimWeb.


(** X4 at concrete values. The overdue reminder of the task [rent]: the subject
    carries the prefix and the body shows the title without it. *)
Lemma overdue_copy_message_witness :
  ∃ msg,
    build_message (H:=Sim.platform) "reminders@example.org" ann
      (sent_copy Overdue rent) = inr msg
    ∧ subject msg = "⏰ Task Reminder: OVERDUE: Pay rent"
    ∧ heading_overdue (html msg) = true
    ∧ overdue_notice (html msg) = true
    ∧ shown_title (html msg) = "Pay rent".
Proof.
  destruct (build_message (H:=Sim.platform) "reminders@example.org" ann
              (sent_copy Overdue rent)) as [e|msg] eqn:Hm.
  { exfalso. vm_compute in Hm. discriminate Hm. }
  exists msg. split; [reflexivity|].
  assert (rent !! "title" = Some (VStr "Pay rent")) as Ht
    by (vm_compute; reflexivity).
  destruct (overdue_copy_message (H:=Sim.platform) _ _ rent (VStr "Pay rent")
              msg Ht Hm) as (Hsub & Hhead & Hnote & _ & Hshown).
  split; [exact Hsub|]. split; [exact Hhead|]. split; [exact Hnote|].
  apply Hshown. vm_compute. reflexivity.
Defined.

(** X5 at concrete values. The due date of [report], with its 'T' and its 'Z':
    the adapter parses what the scheduler parsed. *)
Lemma adapter_parses_due_date_of_scheduler_witness :
  ∃ due dt,
    parse_due_date (H:=Sim.platform) report = inr due
    ∧ reminder_due_date (H:=Sim.platform) report = inr (Some dt)
    ∧ wall due = wall dt
    ∧ tzinfo due = None.
Proof.
  destruct (parse_due_date (H:=Sim.platform) report) as [e|due] eqn:Hp.
  { exfalso. vm_compute in Hp. discriminate Hp. }
  assert (report !! "due_date" = Some (VStr "2024-03-10T12:00:00Z")) as Hd
    by (vm_compute; reflexivity).
  destruct (adapter_parses_due_date_of_scheduler (H:=Sim.platform) report
              "2024-03-10T12:00:00Z" due Hd) as (dt & Hr & Hw & Hz).
  - intros Habs. discriminate Habs.
  - left. vm_compute. reflexivity.
  - exact Hp.
  - exists due, dt. exact (conj eq_refl (conj Hr (conj Hw Hz))).
Defined.

(** X7 at concrete values. A pass at eleven over a task due in an hour and a
    task an hour overdue: two reminders go out and the counter is two. *)
Lemma counter_counts_successes_witness :
  let s := scheduler ∅ [] (Sim.at_time "11:00:00" [report; rent]) in
  reminder_sent_count (pass s) = successes (new_events s (pass s))
  ∧ successes (new_events s (pass s)) = 2%nat.
Proof.
  intros s.
  split; [|vm_compute; reflexivity].
  apply (counter_counts_successes (H:=Sim.platform) Sim.mailer s [report; rent]).
  - reflexivity.
  - intros Habs. discriminate Habs.
Defined.

(** X8 at concrete values. The mailer made from the default settings has no
    sender and no password. A pass over a task due in an hour attempts the
    reminder, which fails; nothing is handed to the mail server and the set
    stays empty. *)
Lemma unconfigured_mailer_sends_nothing_witness :
  let s := scheduler ∅ [] (Sim.at_time "11:00:00" [report]) in
  configured (sender_email default_mailer) = false
  ∧ configured (sender_password default_mailer) = false
  ∧ new_events s (check_task_reminders default_mailer s).2 !! 4%nat
    = Some (EvRemind "t1_1h" ann report false)
  ∧ (∀ msg, EvSmtp msg ∉ new_events s (check_task_reminders default_mailer s).2)
  ∧ (∀ key recipient task,
       EvRemind key recipient task true
         ∉ new_events s (check_task_reminders default_mailer s).2)
  ∧ (sent_reminders (check_task_reminders default_mailer s).2 = ∅
     ∨ ((1000 < size (sent_reminders s))%nat
        ∧ sent_reminders (check_task_reminders default_mailer s).2 = ∅)).
Proof.
  intros s.
  assert (configured (sender_email default_mailer) = false) as Hsender
    by reflexivity.
  assert (configured (sender_password default_mailer) = false) as Hpassword
    by reflexivity.
  assert (new_events s (check_task_reminders default_mailer s).2 !! 4%nat
          = Some (EvRemind "t1_1h" ann report false)) as H4
    by (vm_compute; reflexivity).
  destruct (unconfigured_mailer_sends_nothing (H:=Sim.platform) default_mailer
              s (or_introl Hsender)) as (Hsmtp & Hsent & Hset).
  exact (conj Hsender (conj Hpassword (conj H4 (conj Hsmtp (conj Hsent Hset))))).
Defined.

(** X12 at concrete values. The user [u1] asks for a reminder of the task [t1],
    which [u1] owns: the store is asked for that task of that user, the message
    built from the row goes to the caller's address, and the answer says so. *)
Lemma reminder_route_success_witness :
  let s := scheduler ∅ [] (Sim.at_time "11:00:00" [rent; report]) in
  ∃ body msg,
    (Notifications.send_task_reminder Sim.mailer "t1" ann_user s).1
    = inr (inr body)
    ∧ body = {[ "message" := VStr "Reminder sent successfully";
                "email" := ann ]}
    ∧ build_message (H:=Sim.platform) "reminders@example.org" ann report
      = inr msg
    ∧ new_events s
        (Notifications.send_task_reminder Sim.mailer "t1" ann_user s).2
      = [EvDb DbQuery "tasks"; EvSmtp msg].
Proof.
  intros s.
  destruct (Notifications.send_task_reminder Sim.mailer "t1" ann_user s).1
    as [e|[failure|body]] eqn:Hrun.
  1, 2: exfalso;
    assert (match (Notifications.send_task_reminder Sim.mailer "t1"
                     ann_user s).1 with
            | inr (inr _) => true
            | _ => false
            end = true) as Hok by (vm_compute; reflexivity);
    rewrite Hrun in Hok; discriminate Hok.
  destruct (reminder_route_success (H0:=web) Sim.mailer "t1" ann_user s body
              Hrun)
    as (user_id & user_email & response & row & rest & msg & w
        & Hid & Hemail & Hbody & Hsend & Hstatus & Hrows & _ & _ & Hm & _
        & Hev).
  assert (user_id = VStr "u1") as ->
    by (vm_compute in Hid; by injection Hid as <-).
  assert (user_email = ann) as ->
    by (vm_compute in Hemail; by injection Hemail as <-).
  assert (match (rest_send (route_request "t1" (VStr "u1")) (ext s)).1 with
          | inr r => match rest_rows r with
                     | inr [d] => bool_decide (d = report)
                     | _ => false
                     end
          | inl _ => false
          end = true) as Hfound by (vm_compute; reflexivity).
  rewrite Hsend in Hfound. cbn [fst] in Hfound. rewrite Hrows in Hfound.
  destruct rest; [|discriminate Hfound].
  apply bool_decide_eq_true_1 in Hfound. subst row.
  exists body, msg. exact (conj eq_refl (conj Hbody (conj Hm Hev))).
Defined.

(** X13 at concrete values. The user [u2] asks for a reminder of the task [t1],
    which [u1] owns: the store has no such task of [u2], the route raises 404,
    and nothing is handed to the mail server. *)
Lemma reminder_route_not_found_witness :
  let s := scheduler ∅ [] (Sim.at_time "11:00:00" [rent; report]) in
  (Notifications.send_task_reminder Sim.mailer "t1" bob_user s).1
  = inr (inl (HTTPException 404 "Task not found"))
  ∧ new_events s
      (Notifications.send_task_reminder Sim.mailer "t1" bob_user s).2
    = [EvDb DbQuery "tasks"]
  ∧ heap (Notifications.send_task_reminder Sim.mailer "t1" bob_user s).2 = [].
Proof.
  intros s.
  destruct (reminder_route_not_found (H0:=web) Sim.mailer "t1" bob_user s)
    as [[_ Hraise] Hquiet].
  assert ((Notifications.send_task_reminder Sim.mailer "t1" bob_user s).1
          = inr (inl (HTTPException 404 "Task not found"))) as Hrun.
  { apply Hraise.
    destruct (rest_send (route_request "t1" (VStr "u2")) (ext s))
      as [[e|response] w] eqn:Hsend.
    { exfalso.
      assert (match (rest_send (route_request "t1" (VStr "u2")) (ext s)).1
              with inr _ => true | inl _ => false end = true) as Hok
        by (vm_compute; reflexivity).
      rewrite Hsend in Hok. discriminate Hok. }
    assert (match (rest_send (route_request "t1" (VStr "u2")) (ext s)).1 with
            | inr r => (rest_status r <? 400)
                       && match rest_rows r with
                          | inr [] => true
                          | _ => false
                          end
            | inl _ => false
            end = true) as Hempty by (vm_compute; reflexivity).
    rewrite Hsend in Hempty. cbn [fst] in Hempty.
    apply andb_prop in Hempty as [Hstatus Hrows].
    exists (VStr "u2"), (VStr "bob@example.org"), response, w.
    split; [vm_compute; reflexivity|].
    split; [vm_compute; reflexivity|].
    split; [exact Hsend|].
    split.
    - cbn. apply Z.ltb_lt in Hstatus.
      destruct (400 <=? rest_status response) eqn:Hle; [|reflexivity].
      apply Z.leb_le in Hle. lia.
    - destruct (rest_rows response) as [e|[|row rest]];
        [discriminate Hrows|reflexivity|discriminate Hrows]. }
  exact (conj Hrun (Hquiet Hrun)).
Defined.

(** X14 at concrete values. The user [u1] tests the mail settings with a
    working mailer, and with the mail server down: the success names the
    caller's address; the failure comes back as the text of the exception, not
    as its detail. *)
Lemma test_email_outcomes_witness :
  let up := scheduler ∅ [] (Sim.at_time "11:00:00" []) in
  let down := scheduler ∅ [] (mail_down (Sim.at_time "11:00:00" [])) in
  (∃ msg,
     (Notifications.test_email Sim.mailer ann_user up).1
     = inr (inr {[ "message" := VStr "Test email sent to ann@example.org" ]})
     ∧ new_events up (Notifications.test_email Sim.mailer ann_user up).2
       = [EvSmtp msg])
  ∧ (Notifications.test_email Sim.mailer ann_user down).1
    = inr (inl (HTTPException 500
                  "500: Failed to send test email - check SMTP credentials")).
Proof.
  intros up down. split.
  - destruct (test_email_outcomes (H0:=web) Sim.mailer ann_user up)
      as (_ & _ & _ & _ & _ & Hbody).
    destruct (Notifications.test_email Sim.mailer ann_user up).1
      as [e|[failure|body]] eqn:Hrun.
    1, 2: exfalso;
      assert (match (Notifications.test_email Sim.mailer ann_user up).1 with
              | inr (inr _) => true
              | _ => false
              end = true) as Hok by (vm_compute; reflexivity);
      rewrite Hrun in Hok; discriminate Hok.
    destruct (Hbody body eq_refl) as (user_email & msg & Hemail & -> & Hev).
    assert (user_email = VStr "ann@example.org") as ->
      by (vm_compute in Hemail; by injection Hemail as <-).
    exists msg. exact (conj eq_refl Hev).
  - destruct (test_email_outcomes (H0:=web) Sim.mailer ann_user down)
      as ([outcome Hrun] & _ & _ & _ & Hfail & _).
    rewrite Hrun. destruct outcome as [[status detail]|body].
    + destruct (Hfail status detail Hrun) as [-> [[Hnone _]|[_ ->]]].
      * exfalso. vm_compute in Hnone. discriminate Hnone.
      * reflexivity.
    + exfalso.
      assert (match (Notifications.test_email Sim.mailer ann_user down).1 with
              | inr (inl _) => true
              | _ => false
              end = true) as Hok by (vm_compute; reflexivity).
      rewrite Hrun in Hok. discriminate Hok.
Defined.
